(** * NodeMCU image display: slideshow, sprite animation and mode switching

    A shallow embedding of [src/main.cpp].  The sketch drives a TFT panel
    from a NodeMCU: a slideshow of the bitmaps on the SD card, and a
    "pattern" mode that toggles heart sprites at random positions that do
    not overlap.  A push-button interrupt raises a flag that both modes
    poll, and [loop] debounces it to switch modes.

    The hardware is an environment: the interrupt line, the random number
    generator, the millisecond clock and the image reader are oracles, and
    everything the sketch sends to the panel or the serial port is
    appended to an output log. *)

From Stdlib Require Import ZArith Lia Bool List.
From stdpp Require Import base list strings.
Import ListNotations.

Local Open Scope string_scope.
Local Open Scope Z_scope.

(** ** Machine integers *)

(** [uint8_t], [uint16_t] and [uint32_t] values are integers with their
    wrap-around written out; [int16_t] and [int32_t] are two's complement. *)
Definition to_u8 (v : Z) : Z := v mod 256.
Definition to_u16 (v : Z) : Z := v mod 65536.
Definition to_u32 (v : Z) : Z := v mod 4294967296.
Definition to_i16 (v : Z) : Z := (v + 32768) mod 65536 - 32768.
Definition to_i32 (v : Z) : Z := (v + 2147483648) mod 4294967296 - 2147483648.

(** ** Constants of the sketch *)

Definition BLACK : Z := 0.
Definition WHITE : Z := 65535.

Definition rootDir : string := "/".
Definition screenWidth : Z := 240.
Definition screenLength : Z := 320.
Definition slideshowRefreshTime : Z := 4000.
Definition maxStates : Z := 2.

(** ** The environment *)

(** Status of the image reader's calls. *)
Inductive ImageReturnCode :=
| IMAGE_SUCCESS
| IMAGE_ERR_FILE_NOT_FOUND
| IMAGE_ERR_FORMAT
| IMAGE_ERR_MALLOC.

(** What the sketch sends out: panel commands, bitmap draws (stamped with
    the time of the latest clock reading, for the timing properties) and
    serial messages. *)
Inductive Output :=
| FillScreen (color : Z)
| SetCursor (x y : Z)
| SetTextSize (n : Z)
| SetTextColor (color : Z)
| TftPrintln (s : string)
| DrawBMP (ms : Z) (file : string) (x y : Z)
| PrintStatus (stat : ImageReturnCode)
| SerialPrint (s : string)
| SerialPrintln (s : string).

(** The oracles.  [irq n] tells whether the button interrupt fires before
    the [n]-th read of the flag (since the read before); [rand_raw n] is
    the raw 32-bit value behind the [n]-th call of [random]; [clock n] is
    the number of milliseconds since boot at the [n]-th call of [millis];
    the reader's two calls answer with a status, and [bmpDimensions] gets
    the current contents of its two out-parameters and returns the new
    ones. *)
Record Oracle := {
  irq : nat -> bool;
  rand_raw : nat -> Z;
  clock : nat -> Z;
  reader_bmpDimensions : string -> Z -> Z -> ImageReturnCode * Z * Z;
  reader_drawBMP : string -> Z -> Z -> ImageReturnCode
}.

(** The global variables of the sketch that change. *)
Record Globals := {
  changeButtonState : bool;
  currentState : Z;
  prevStateChange : Z
}.

(** [modeChangeInterupt]: the ISR only sets the flag. *)
Definition modeChangeInterupt (g : Globals) : Globals :=
  {| changeButtonState := true;
     currentState := currentState g;
     prevStateChange := prevStateChange g |}.

Definition clear_flag (g : Globals) : Globals :=
  {| changeButtonState := false;
     currentState := currentState g;
     prevStateChange := prevStateChange g |}.

(** The state threaded through the code: the globals, how far each oracle
    has been consumed, the time of the latest clock reading and the
    output log. *)
Record World := {
  globals : Globals;
  flag_reads : nat;
  rand_calls : nat;
  clock_calls : nat;
  now_ms : Z;
  out : list Output
}.

(** ** A state monad over the world *)

Definition M (A : Type) : Type := World -> A * World.

Definition ret {A} (a : A) : M A := fun w => (a, w).

Definition bind {A B} (m : M A) (k : A -> M B) : M B :=
  fun w => let r := m w in k (fst r) (snd r).

Declare Scope io_scope.
Delimit Scope io_scope with io.
Notation "'let*' x ':=' m 'in' k" := (bind m (fun x => k))
  (at level 10, x name, m at level 100, k at level 200, only parsing) : io_scope.
Notation "m ';;' k" := (bind m (fun _ => k))
  (at level 100, k at level 200, right associativity, only parsing) : io_scope.
Local Open Scope io_scope.

Section Sketch.

Variable orc : Oracle.

(** Reading the volatile flag: an interrupt that fired since the last read
    has run [modeChangeInterupt] first. *)
Definition read_changeButtonState : M bool := fun w =>
  let g := if irq orc (flag_reads w)
           then modeChangeInterupt (globals w) else globals w in
  (changeButtonState g,
   {| globals := g; flag_reads := S (flag_reads w);
      rand_calls := rand_calls w; clock_calls := clock_calls w;
      now_ms := now_ms w; out := out w |}).

(** [millis()]: the clock as an unsigned 32-bit value. *)
Definition millis : M Z := fun w =>
  let t := clock orc (clock_calls w) in
  (to_u32 t,
   {| globals := globals w; flag_reads := flag_reads w;
      rand_calls := rand_calls w; clock_calls := S (clock_calls w);
      now_ms := t; out := out w |}).

(** [random(howbig)] of the Arduino core: 0 when [howbig] is 0, else the
    raw value reduced modulo [howbig]. *)
Definition random (howbig : Z) : M Z := fun w =>
  let v := to_u32 (rand_raw orc (rand_calls w)) in
  (if howbig =? 0 then 0 else v mod howbig,
   {| globals := globals w; flag_reads := flag_reads w;
      rand_calls := S (rand_calls w); clock_calls := clock_calls w;
      now_ms := now_ms w; out := out w |}).

Definition emit (o : Output) : M unit := fun w =>
  (tt,
   {| globals := globals w; flag_reads := flag_reads w;
      rand_calls := rand_calls w; clock_calls := clock_calls w;
      now_ms := now_ms w; out := out w ++ [o] |}).

(** [yield()] hands the processor to the system; nothing the sketch can
    observe changes (interrupts are accounted for at the flag reads). *)
Definition yield : M unit := ret tt.

(** [millis() - t >= limit] on [uint32_t]. *)
Definition elapsed (now t : Z) : Z := to_u32 (now - t).

(** ** Drawing one image *)

(** [reader.drawBMP(filename, tft, x, y)]: the coordinates are [int16_t]
    parameters; the attempt is logged and the status comes back. *)
Definition drawBMP (filename : string) (x y : Z) : M ImageReturnCode := fun w =>
  let x16 := to_i16 x in
  let y16 := to_i16 y in
  (reader_drawBMP orc filename x16 y16,
   {| globals := globals w; flag_reads := flag_reads w;
      rand_calls := rand_calls w; clock_calls := clock_calls w;
      now_ms := now_ms w;
      out := out w ++ [DrawBMP (now_ms w) filename x16 y16] |}).

Definition printStatus (stat : ImageReturnCode) : M unit :=
  emit (PrintStatus stat).

(** [displayImageTFT(tft, filename)]: the image centred on the panel. *)
Definition displayImageTFT (filename : string) : M unit :=
  let width := 0 in
  let height := 0 in
  let d := reader_bmpDimensions orc filename width height in
  let stat := fst (fst d) in
  let width := snd (fst d) in
  let height := snd d in
  printStatus stat ;;
  let* stat := drawBMP filename
                 (to_i32 (screenWidth - width) ÷ 2)
                 (to_i32 (screenLength - height) ÷ 2) in
  printStatus stat.

(** [displayImageTFT(tft, filename, x, y)]: the overload with a position. *)
Definition displayImageTFT_at (filename : string) (x y : Z) : M unit :=
  let* stat := drawBMP filename x y in
  printStatus stat.

(** ** The sprite animator ([patternMode]) *)

Definition spriteSize : Z := 32.
Definition maxSprites : Z := 10.
Definition xBorderSprite : Z := to_u16 (screenWidth - spriteSize).
Definition yBorderSprite : Z := to_u16 (screenLength - spriteSize - 100).
Definition refreshTime : Z := 500.

(** The three local arrays of [patternMode], indexed by slot. *)
Record Sprites := {
  posXArr : list Z;
  posYArr : list Z;
  onScreen : list bool
}.

Definition no_sprites : Sprites :=
  {| posXArr := replicate (Z.to_nat maxSprites) 0;
     posYArr := replicate (Z.to_nat maxSprites) 0;
     onScreen := replicate (Z.to_nat maxSprites) false |}.

(** Array reads.  Every index the code uses is below [maxSprites]; the
    defaults stand for reads that never happen. *)
Definition onScreen_at (sp : Sprites) (i : nat) : bool :=
  default false (onScreen sp !! i).
Definition posX_at (sp : Sprites) (i : nat) : Z := default 0 (posXArr sp !! i).
Definition posY_at (sp : Sprites) (i : nat) : Z := default 0 (posYArr sp !! i).

(** The local variables of the placement search. *)
Record Candidate := {
  xPos : Z;
  yPos : Z;
  collision : bool
}.

(** The two nested collision tests of the [for] body.  The operands are
    [uint16_t] and are promoted to [int], so the subtraction may go
    below zero and does not wrap. *)
Definition x_collides (x px : Z) : bool :=
  negb ((x <? px - spriteSize - 1) || (x >? px + spriteSize + 1)).
Definition y_collides (y py : Z) : bool :=
  negb ((y <? py - spriteSize - 1) || (y >? py + spriteSize + 1)).

(** One iteration of [for(int i=0;i<maxSprites;i++)]. *)
Definition check_slot (sp : Sprites) (i : nat) (c : Candidate) : M Candidate :=
  if onScreen_at sp i then
    if x_collides (xPos c) (posX_at sp i) then
      if y_collides (yPos c) (posY_at sp i) then
        emit (SerialPrintln "Y Collision detected!") ;;
        let* x := random xBorderSprite in
        let* y := random yBorderSprite in
        ret {| xPos := to_u16 x; yPos := to_u16 y; collision := true |}
      else ret c
    else ret c
  else ret c.

Fixpoint for_slots (slots : list nat) (sp : Sprites) (c : Candidate)
  : M Candidate :=
  match slots with
  | [] => ret c
  | i :: rest => let* c' := check_slot sp i c in for_slots rest sp c'
  end.

Definition all_slots : list nat := seq 0 (Z.to_nat maxSprites).

(** How the [do ... while(collision)] loop ends. *)
Inductive Search :=
| Free (x y : Z)
| Interrupted
| Searching.

(** The collision-retry loop; [fuel] bounds the number of passes, and
    [Searching] is a loop that has not ended within it. *)
Fixpoint find_free (fuel : nat) (sp : Sprites) (c : Candidate) : M Search :=
  match fuel with
  | O => ret Searching
  | S fuel' =>
      let c0 := {| xPos := xPos c; yPos := yPos c; collision := false |} in
      let* raised := read_changeButtonState in
      if raised then ret Interrupted
      else
        let* c' := for_slots all_slots sp c0 in
        if collision c' then find_free fuel' sp c'
        else ret (Free (xPos c') (yPos c'))
  end.

(** What one pass through the body of [if(millis()-time1>=refreshTime)]
    did, with the slot that [random(maxSprites)] picked. *)
Inductive Tick :=
| Erased (slot : nat)
| Placed (slot : nat) (x y : Z)
| Aborted (slot : nat)
| Unfinished (slot : nat).

Definition picked (t : Tick) : nat :=
  match t with
  | Erased k | Placed k _ _ | Aborted k | Unfinished k => k
  end.

Definition completed (t : Tick) : bool :=
  match t with
  | Erased _ | Placed _ _ _ => true
  | Aborted _ | Unfinished _ => false
  end.

Definition hide (sp : Sprites) (k : nat) : Sprites :=
  {| posXArr := posXArr sp; posYArr := posYArr sp;
     onScreen := <[k := false]> (onScreen sp) |}.

Definition place (sp : Sprites) (k : nat) (x y : Z) : Sprites :=
  {| posXArr := <[k := x]> (posXArr sp);
     posYArr := <[k := y]> (posYArr sp);
     onScreen := <[k := true]> (onScreen sp) |}.

(** Lines 162 to 204: pick a slot, erase it if it is shown, else look for
    a free position and show it there. *)
Definition sprite_tick (fuel : nat) (sp : Sprites) : M (Tick * Sprites) :=
  let* r := random maxSprites in
  let spritePick := Z.to_nat (to_u16 r) in
  if onScreen_at sp spritePick then
    displayImageTFT_at "/pattern/clear-32.bmp"
      (posX_at sp spritePick) (posY_at sp spritePick) ;;
    ret (Erased spritePick, hide sp spritePick)
  else
    let* x := random xBorderSprite in
    let* y := random yBorderSprite in
    let* found := find_free fuel sp
                    {| xPos := to_u16 x; yPos := to_u16 y; collision := false |} in
    match found with
    | Interrupted => ret (Aborted spritePick, sp)
    | Searching => ret (Unfinished spritePick, sp)
    | Free xPos yPos =>
        let sp' := place sp spritePick xPos yPos in
        displayImageTFT_at "/pattern/heart.bmp" xPos yPos ;;
        ret (Placed spritePick xPos yPos, sp')
    end.

(** How a mode function ends: it ran to its end, it returned early on the
    mode-change flag, or it is still running when the bound on its
    iterations is reached. *)
Inductive Exit :=
| Finished
| Cancelled
| Running.

(** The [while(true)] loop of [patternMode], at most [n] iterations. *)
Fixpoint pattern_loop (n fuel : nat) (sp : Sprites) (time1 : Z)
  : M (Exit * Sprites) :=
  match n with
  | O => ret (Running, sp)
  | S n' =>
      yield ;;
      let* raised := read_changeButtonState in
      if raised then ret (Cancelled, sp)
      else
        let* now := millis in
        if elapsed now time1 >=? refreshTime then
          let* r := sprite_tick fuel sp in
          match fst r with
          | Aborted _ => ret (Cancelled, snd r)
          | Unfinished _ => ret (Running, snd r)
          | Erased _ | Placed _ _ _ =>
              let* t := millis in pattern_loop n' fuel (snd r) t
          end
        else pattern_loop n' fuel sp time1
  end.

Definition patternMode (n fuel : nat) : M (Exit * Sprites) :=
  emit (FillScreen BLACK) ;;
  displayImageTFT_at "/pattern/bottom-message.bmp" (-5) 220 ;;
  let* time1 := millis in
  pattern_loop n fuel no_sprites time1.

(** ** The slideshow ([displayAllImagesDir]) *)

(** [dir.openNextFile()] on a directory given by the names still to come:
    the next entry, or a closed file when there is none. *)
Definition openNextFile (dir : list string) : option string * list string :=
  match dir with
  | [] => (None, [])
  | name :: rest => (Some name, rest)
  end.

(** [const uint8_t nameLengthMax = 50], the size of [char name[50]]. *)
Definition nameLengthMax : Z := 50.

(** [entry.getName(name, nameLengthMax)] into [char name[50]].  A name
    of at most 49 characters is copied whole, with its closing zero; a
    longer one does not fit, the call gives up and leaves the empty
    string, as it does for a closed file. *)
Definition getName (entry : option string) : string :=
  match entry with
  | Some name =>
      if Z.of_nat (String.length name) <? nameLengthMax then name else ""
  | None => ""
  end.

(** The last loop, [while(!(millis()-time_1>=slideshowRefreshTime))]. *)
Fixpoint final_delay (fuel : nat) (time_1 : Z) : M Exit :=
  match fuel with
  | O => ret Running
  | S fuel' =>
      let* now := millis in
      if negb (elapsed now time_1 >=? slideshowRefreshTime)
      then yield ;; final_delay fuel' time_1
      else ret Finished
  end.

(** The loop [while(entry)], followed by the last loop. *)
Fixpoint show_rest (fuel : nat) (rootDir : string) (entry : option string)
    (dir : list string) (time_1 : Z) : M Exit :=
  match entry with
  | None => final_delay fuel time_1
  | Some name =>
      match fuel with
      | O => ret Running
      | S fuel' =>
          let* raised := read_changeButtonState in
          if raised then ret Cancelled
          else
            let* now := millis in
            if elapsed now time_1 >=? slideshowRefreshTime then
              displayImageTFT (rootDir ++ getName entry) ;;
              let next := openNextFile dir in
              let* t := millis in
              yield ;;
              show_rest fuel' rootDir (fst next) (snd next) t
            else
              yield ;;
              show_rest fuel' rootDir entry dir time_1
      end
  end.

(** [displayAllImagesDir(tft, rootDir, changeStateButton)] on the
    directory listing [files].  The third parameter is a copy of the flag
    taken at the call; the body polls the global. *)
Definition displayAllImagesDir (fuel : nat) (files : list string)
    (rootDir : string) (changeStateButton : bool) : M Exit :=
  let first := openNextFile files in
  let* time_1 := millis in
  displayImageTFT (rootDir ++ getName (fst first)) ;;
  let next := openNextFile (snd first) in
  show_rest fuel rootDir (fst next) (snd next) time_1.

(** ** Error screen and start-up *)

Definition newline : string := String (Ascii.ascii_of_nat 10) EmptyString.

Definition errorMode (message : string) : M unit :=
  emit (FillScreen BLACK) ;;
  emit (SetCursor 0 0) ;;
  emit (SetTextSize 2) ;;
  emit (SetTextColor WHITE) ;;
  emit (TftPrintln message) ;;
  emit (TftPrintln " ") ;;
  emit (TftPrintln ("Please unplug and " ++ newline ++ "replug the device")).

(** How [setup] ends: it returns with the interrupt attached, or it stays
    in its [while(true){ yield(); }] and never returns. *)
Inductive Boot :=
| Ready
| Halted.

(** [setup()], given what [SD.begin] answers. *)
Definition setup (sd_begin : bool) : M Boot :=
  emit (SerialPrint "Initializing filesystem...") ;;
  if negb sd_begin then
    emit (SerialPrintln "SD begin() failed") ;;
    errorMode "SD card not detected" ;;
    ret Halted
  else
    emit (SerialPrintln "OK!") ;;
    ret Ready.

(** ** The mode state machine ([loop]) *)

Definition get_globals : M Globals := fun w => (globals w, w).

Definition put_globals (g : Globals) : M unit := fun w =>
  (tt,
   {| globals := g; flag_reads := flag_reads w;
      rand_calls := rand_calls w; clock_calls := clock_calls w;
      now_ms := now_ms w; out := out w |}).

(** [currentState++] on [uint8_t], back to 0 at [maxStates]. *)
Definition next_state (c : Z) : Z :=
  let c := to_u8 (c + 1) in
  if c >=? maxStates then 0 else c.

(** [(millis()-prevStateChange)>=50]. *)
Definition debounced (now : Z) (g : Globals) : bool :=
  elapsed now (prevStateChange g) >=? 50.

(** The accepted change, with [now'] the clock read at line 258. *)
Definition change_state (now' : Z) (g : Globals) : Globals :=
  {| changeButtonState := false;
     currentState := next_state (currentState g);
     prevStateChange := now' |}.

(** Lines 250 to 261 as a function of the two clock readings. *)
Definition debounce (now now' : Z) (g : Globals) : Globals :=
  if changeButtonState g && debounced now g
  then change_state now' g
  else clear_flag g.

(** The same lines in the world; [&&] reads the clock only when the flag
    is set. *)
Definition loop_head : M unit :=
  let* raised := read_changeButtonState in
  let* g := get_globals in
  if raised then
    let* now := millis in
    if debounced now g then
      emit (SerialPrintln "State Change") ;;
      let* now' := millis in
      put_globals (change_state now' g)
    else put_globals (clear_flag g)
  else put_globals (clear_flag g).

Inductive Mode :=
| Slideshow
| Pattern.

(** [switch (currentState)]. *)
Definition mode_of (c : Z) : Mode :=
  match c with
  | 1 => Pattern
  | _ => Slideshow
  end.

(** One call of [loop()]. *)
Definition loop (n fuel : nat) (files : list string) : M Exit :=
  loop_head ;;
  let* g := get_globals in
  match mode_of (currentState g) with
  | Slideshow => displayAllImagesDir n files rootDir (changeButtonState g)
  | Pattern => let* r := patternMode n fuel in ret (fst r)
  end.

End Sketch.

(** ** The board over time *)

(** The board after [setup]: idling for ever in [setup]'s last loop, or
    calling [loop] again and again.  The button's falling edge runs the
    ISR only if [setup] got as far as attaching it. *)
Inductive Phase :=
| Idling
| Looping.

Record Board := {
  phase : Phase;
  isr_attached : bool;
  vars : Globals;
  sent : list Output;
  entered : list Mode
}.

(** What happens to the board: the button is pressed at time [t], or the
    main context takes its next turn: one more [yield()] when idling, one
    call of [loop()] when looping, whose two clock readings are [now] and
    [now'] and whose mode function is entered (the mode functions write
    no global). *)
Inductive Stimulus :=
| Press (t : Z)
| Turn (now now' : Z).

Definition start_world (boot_ms : Z) : World :=
  {| globals := {| changeButtonState := false; currentState := 0;
                   prevStateChange := to_u32 boot_ms |};
     flag_reads := 0; rand_calls := 0; clock_calls := 0;
     now_ms := boot_ms; out := [] |}.

Definition power_on (boot_ms : Z) (sd_begin : bool) : Board :=
  let r := setup sd_begin (start_world boot_ms) in
  {| phase := match fst r with Ready => Looping | Halted => Idling end;
     isr_attached := match fst r with Ready => true | Halted => false end;
     vars := globals (snd r);
     sent := out (snd r);
     entered := [] |}.

Definition board_step (b : Board) (ev : Stimulus) : Board :=
  match ev with
  | Press _ =>
      if isr_attached b then
        {| phase := phase b; isr_attached := isr_attached b;
           vars := modeChangeInterupt (vars b);
           sent := sent b; entered := entered b |}
      else b
  | Turn now now' =>
      match phase b with
      | Idling => b
      | Looping =>
          let g := debounce (to_u32 now) (to_u32 now') (vars b) in
          {| phase := phase b; isr_attached := isr_attached b;
             vars := g; sent := sent b;
             entered := entered b ++ [mode_of (currentState g)] |}
      end
  end.

Definition board_run (b : Board) (evs : list Stimulus) : Board :=
  fold_left board_step evs b.

(** The turns of a run at which [currentState] changed. *)
Fixpoint transitions (b : Board) (evs : list Stimulus) : nat :=
  match evs with
  | [] => O
  | ev :: rest =>
      let b' := board_step b ev in
      ((if (currentState (vars b') =? currentState (vars b))%Z then 0 else 1)
       + transitions b' rest)%nat
  end.

(** The time of a stimulus and a run in the order of time. *)
Definition starts_at (ev : Stimulus) : Z :=
  match ev with Press t => t | Turn now _ => now end.
Definition ends_at (ev : Stimulus) : Z :=
  match ev with Press t => t | Turn _ now' => now' end.

Fixpoint chronological (from : Z) (evs : list Stimulus) : bool :=
  match evs with
  | [] => true
  | ev :: rest =>
      (from <=? starts_at ev) && (starts_at ev <=? ends_at ev)
      && chronological (ends_at ev) rest
  end.

(** ** Properties of the slots *)

(** All three arrays have [maxSprites] cells. *)
Definition sprites_wf (sp : Sprites) : Prop :=
  length (posXArr sp) = Z.to_nat maxSprites /\
  length (posYArr sp) = Z.to_nat maxSprites /\
  length (onScreen sp) = Z.to_nat maxSprites.

(** Two top-left corners far enough apart in one axis at least. *)
Definition apart (x1 y1 x2 y2 : Z) : Prop :=
  Z.abs (x1 - x2) > spriteSize + 1 \/ Z.abs (y1 - y2) > spriteSize + 1.

(** No two distinct visible slots overlap. *)
Definition no_overlap (sp : Sprites) : Prop :=
  forall (i j : nat) (x1 y1 x2 y2 : Z),
    i <> j ->
    onScreen sp !! i = Some true -> onScreen sp !! j = Some true ->
    posXArr sp !! i = Some x1 -> posYArr sp !! i = Some y1 ->
    posXArr sp !! j = Some x2 -> posYArr sp !! j = Some y2 ->
    apart x1 y1 x2 y2.

(** A position inside the field the candidates are drawn from. *)
Definition in_field (x y : Z) : Prop :=
  0 <= x < screenWidth - spriteSize /\
  0 <= y < screenLength - spriteSize - 100.

(** Every visible slot lies in the field. *)
Definition all_in_field (sp : Sprites) : Prop :=
  forall (i : nat) (x y : Z),
    onScreen sp !! i = Some true ->
    posXArr sp !! i = Some x -> posYArr sp !! i = Some y ->
    in_field x y.

(** The candidate [(x, y)] does not collide with slot [i]. *)
Definition clear_of (sp : Sprites) (x y : Z) (i : nat) : Prop :=
  onScreen_at sp i = true ->
  x_collides x (posX_at sp i) && y_collides y (posY_at sp i) = false.

(** What the flag reads at the [j]-th check from [w] on (the check at
    hand is number 0): the checks before it ran [modeChangeInterupt] when
    an interrupt fired, and nothing clears the flag in between. *)
Fixpoint flag_at (orc : Oracle) (w : World) (j : nat) : bool :=
  match j with
  | O => fst (read_changeButtonState orc w)
  | S j' => flag_at orc (snd (read_changeButtonState orc w)) j'
  end.

(** What every pass keeps: the arrays' sizes, no overlap among the
    visible slots, and every visible slot inside the field. *)
Definition animator_inv (sp : Sprites) : Prop :=
  sprites_wf sp /\ no_overlap sp /\ all_in_field sp.

(** Two values of the globals with the same mode state: only the flag
    may differ. *)
Definition same_mode (g g' : Globals) : Prop :=
  currentState g' = currentState g /\
  prevStateChange g' = prevStateChange g.

(** A computation that leaves the mode state alone. *)
Definition keeps_mode {A} (m : M A) : Prop :=
  forall w, same_mode (globals w) (globals (snd (m w))).

(** A test bench: raw random values and interrupts from lists, a clock
    that advances by [step_ms] at every reading, and a reader that finds
    every image and reports a full-screen bitmap. *)
Definition bench (raws : list Z) (irqs : list bool) (step_ms : Z) : Oracle :=
  {| irq := fun n => nth n irqs false;
     rand_raw := fun n => nth n raws 0;
     clock := fun n => step_ms * Z.of_nat n;
     reader_bmpDimensions := fun _ _ _ => (IMAGE_SUCCESS, 240, 320);
     reader_drawBMP := fun _ _ _ => IMAGE_SUCCESS |}.

(** The bitmaps drawn, each with its time stamp. *)
Fixpoint shown (log : list Output) : list (Z * string) :=
  match log with
  | [] => []
  | DrawBMP ms file _ _ :: rest => (ms, file) :: shown rest
  | _ :: rest => shown rest
  end.

(** What [setup] leaves on the serial port and the panel when the card
    does not mount. *)
Definition error_screen : list Output :=
  [ SerialPrint "Initializing filesystem...";
    SerialPrintln "SD begin() failed";
    FillScreen 0; SetCursor 0 0; SetTextSize 2; SetTextColor 65535;
    TftPrintln "SD card not detected";
    TftPrintln " ";
    TftPrintln ("Please unplug and " ++ newline ++ "replug the device") ].

(** ** Further notions for the properties below *)

(** A name that fits [char name[50]] with its closing zero. *)
Definition fits_buffer (name : string) : Prop :=
  Z.of_nat (String.length name) < nameLengthMax.

(** Where pass number [k] of the collision-retry loop starts, if the
    search gets that far: each pass before it found the flag down at its
    check and a collision in its scan. *)
Fixpoint pass_start (orc : Oracle) (k : nat) (sp : Sprites) (c : Candidate)
    (w : World) : option (Candidate * World) :=
  match k with
  | O => Some (c, w)
  | S k' =>
      let c0 := {| xPos := xPos c; yPos := yPos c; collision := false |} in
      let r := read_changeButtonState orc w in
      if fst r then None
      else
        let s := for_slots orc all_slots sp c0 (snd r) in
        if collision (fst s) then pass_start orc k' sp (fst s) (snd s)
        else None
  end.

(** The button presses of a run. *)
Fixpoint presses (evs : list Stimulus) : nat :=
  match evs with
  | [] => O
  | Press _ :: rest => S (presses rest)
  | Turn _ _ :: rest => presses rest
  end.

(** The entries the slideshow still has to show: the open one and those
    the directory has not handed out. *)
Definition remaining (entry : option string) (dir : list string) : list string :=
  match entry with
  | Some name => name :: dir
  | None => []
  end.

(** A computation that reads no clock and draws no bitmap: it leaves
    the clock where it is and adds only lines without a bitmap to the
    log. *)
Definition serial_only {A} (m : M A) : Prop :=
  forall w,
    now_ms (snd (m w)) = now_ms w /\
    clock_calls (snd (m w)) = clock_calls w /\
    exists l, out (snd (m w)) = (out w ++ l)%list /\ shown l = [].

(** A sprite (heart or blank) is drawn inside the field; other output is
    of no concern. *)
Definition sprite_draw_in_field (o : Output) : Prop :=
  match o with
  | DrawBMP _ file x y =>
      file = "/pattern/heart.bmp" \/ file = "/pattern/clear-32.bmp" ->
      in_field x y
  | _ => True
  end.

(** Time stamps in ascending order, each at least [gap] after the one
    before. *)
Fixpoint spaced (gap : Z) (ts : list Z) : Prop :=
  match ts with
  | [] => True
  | a :: rest =>
      match rest with
      | [] => True
      | b :: _ => a + gap <= b /\ spaced gap rest
      end
  end.

(** The number of slots on screen. *)
Fixpoint count_true (l : list bool) : nat :=
  match l with
  | [] => O
  | b :: rest => ((if b then 1 else 0) + count_true rest)%nat
  end.

Definition visible_count (sp : Sprites) : nat := count_true (onScreen sp).

(** ** Machine integers and the oracles *)

Lemma to_u16_small (v : Z) : 0 <= v < 65536 -> to_u16 v = v.
Proof. intros H. unfold to_u16. apply Z.mod_small. exact H. Qed.

Lemma getName_fits (name : string) :
  fits_buffer name -> getName (Some name) = name.
Proof.
  unfold fits_buffer, getName. intros H.
  destruct (_ <? nameLengthMax) eqn:E; [reflexivity|].
  apply Z.ltb_ge in E. lia.
Qed.

Lemma elapsed_exact (a b : Z) :
  0 <= a - b < 4294967296 -> elapsed (to_u32 a) (to_u32 b) = a - b.
Proof.
  intros H. unfold elapsed, to_u32.
  rewrite <- Zminus_mod. apply Z.mod_small. exact H.
Qed.

Lemma random_range (orc : Oracle) (howbig : Z) (w : World) :
  0 < howbig -> 0 <= fst (random orc howbig w) < howbig.
Proof.
  intros Hpos. unfold random. cbn [fst].
  destruct (howbig =? 0) eqn:E.
  - apply Z.eqb_eq in E. lia.
  - apply Z.mod_pos_bound. exact Hpos.
Qed.

Lemma fresh_in_field (orc : Oracle) (w w' : World) :
  in_field (to_u16 (fst (random orc xBorderSprite w)))
           (to_u16 (fst (random orc yBorderSprite w'))).
Proof.
  pose proof (random_range orc xBorderSprite w) as Hx.
  pose proof (random_range orc yBorderSprite w') as Hy.
  change xBorderSprite with 208 in *. change yBorderSprite with 188 in *.
  unfold in_field, screenWidth, screenLength, spriteSize.
  rewrite !to_u16_small by lia. lia.
Qed.

Lemma collides_apart (x y px py : Z) :
  x_collides x px && y_collides y py = false <-> apart x y px py.
Proof.
  unfold x_collides, y_collides, apart, spriteSize.
  rewrite andb_false_iff, !negb_false_iff, !orb_true_iff.
  rewrite !Z.ltb_lt, !Z.gtb_gt. lia.
Qed.

Lemma apart_sym (x1 y1 x2 y2 : Z) : apart x1 y1 x2 y2 -> apart x2 y2 x1 y1.
Proof. unfold apart. lia. Qed.

(** ** The placement search *)

Section Search.

Variable orc : Oracle.
Variable sp : Sprites.

(** A pass that reports no collision at a slot changed nothing there and
    found the slot clear of the candidate. *)
Lemma check_slot_quiet (i : nat) (c : Candidate) (w : World) :
  collision c = false ->
  collision (fst (check_slot orc sp i c w)) = false ->
  check_slot orc sp i c w = (c, w) /\ clear_of sp (xPos c) (yPos c) i.
Proof.
  intros Hc. unfold check_slot, clear_of.
  destruct (onScreen_at sp i); [|intros _; split; [reflexivity|discriminate]].
  destruct (x_collides (xPos c) (posX_at sp i));
    [|intros _; split; reflexivity].
  destruct (y_collides (yPos c) (posY_at sp i));
    [|intros _; split; reflexivity].
  cbn. discriminate.
Qed.

(** Once set, [collision] stays set to the end of the pass. *)
Lemma check_slot_keeps (i : nat) (c : Candidate) (w : World) :
  collision c = true -> collision (fst (check_slot orc sp i c w)) = true.
Proof.
  intros Hc. unfold check_slot.
  destruct (onScreen_at sp i); [|exact Hc].
  destruct (x_collides _ _); [|exact Hc].
  destruct (y_collides _ _); [reflexivity|exact Hc].
Qed.

Lemma check_slot_field (i : nat) (c : Candidate) (w : World) :
  in_field (xPos c) (yPos c) ->
  in_field (xPos (fst (check_slot orc sp i c w)))
           (yPos (fst (check_slot orc sp i c w))).
Proof.
  intros Hc. unfold check_slot.
  destruct (onScreen_at sp i); [|exact Hc].
  destruct (x_collides _ _); [|exact Hc].
  destruct (y_collides _ _); [|exact Hc].
  unfold bind, ret. cbn [fst snd xPos yPos]. apply fresh_in_field.
Qed.

(** The pass reads neither the flag nor the clock. *)
Lemma check_slot_frame (i : nat) (c : Candidate) (w : World) :
  globals (snd (check_slot orc sp i c w)) = globals w /\
  flag_reads (snd (check_slot orc sp i c w)) = flag_reads w.
Proof.
  unfold check_slot.
  destruct (onScreen_at sp i); [|split; reflexivity].
  destruct (x_collides _ _); [|split; reflexivity].
  destruct (y_collides _ _); split; reflexivity.
Qed.

Lemma for_slots_keeps (slots : list nat) (c : Candidate) (w : World) :
  collision c = true -> collision (fst (for_slots orc slots sp c w)) = true.
Proof.
  revert c w. induction slots as [|i rest IH]; intros c w Hc; [exact Hc|].
  cbn [for_slots]. unfold bind. apply IH. apply check_slot_keeps. exact Hc.
Qed.

Lemma for_slots_quiet (slots : list nat) (c : Candidate) (w : World) :
  collision c = false ->
  collision (fst (for_slots orc slots sp c w)) = false ->
  for_slots orc slots sp c w = (c, w) /\
  forall i, In i slots -> clear_of sp (xPos c) (yPos c) i.
Proof.
  revert c w. induction slots as [|i rest IH]; intros c w Hc Hend.
  - split; [reflexivity|intros i []].
  - cbn [for_slots] in *. unfold bind in *.
    destruct (collision (fst (check_slot orc sp i c w))) eqn:Hi.
    + rewrite for_slots_keeps in Hend by exact Hi. discriminate.
    + destruct (check_slot_quiet i c w Hc Hi) as [Heq Hclear].
      rewrite Heq in *. cbn [fst snd] in *.
      destruct (IH c w Hc Hend) as [Hrest Hall].
      split; [exact Hrest|].
      intros k [<-|Hk]; [exact Hclear|apply Hall; exact Hk].
Qed.

Lemma for_slots_field (slots : list nat) (c : Candidate) (w : World) :
  in_field (xPos c) (yPos c) ->
  in_field (xPos (fst (for_slots orc slots sp c w)))
           (yPos (fst (for_slots orc slots sp c w))).
Proof.
  revert c w. induction slots as [|i rest IH]; intros c w Hc; [exact Hc|].
  cbn [for_slots]. unfold bind. apply IH. apply check_slot_field. exact Hc.
Qed.

Lemma for_slots_frame (slots : list nat) (c : Candidate) (w : World) :
  globals (snd (for_slots orc slots sp c w)) = globals w /\
  flag_reads (snd (for_slots orc slots sp c w)) = flag_reads w.
Proof.
  revert c w. induction slots as [|i rest IH]; intros c w;
    [split; reflexivity|].
  cbn [for_slots]. unfold bind.
  destruct (IH (fst (check_slot orc sp i c w)) (snd (check_slot orc sp i c w)))
    as [Hg Hr].
  destruct (check_slot_frame i c w) as [Hg' Hr'].
  split; congruence.
Qed.

(** A position the search accepts lies in the field and is clear of
    every slot. *)
Lemma find_free_accepts (fuel : nat) (c : Candidate) (w : World) (x y : Z) :
  in_field (xPos c) (yPos c) ->
  fst (find_free orc fuel sp c w) = Free x y ->
  in_field x y /\ forall i, In i all_slots -> clear_of sp x y i.
Proof.
  revert c w. induction fuel as [|fuel IH]; intros c w Hc; [discriminate|].
  cbn [find_free]. unfold bind.
  destruct (fst (read_changeButtonState orc w)); [discriminate|].
  set (c0 := {| xPos := xPos c; yPos := yPos c; collision := false |}).
  set (w1 := snd (read_changeButtonState orc w)).
  destruct (collision (fst (for_slots orc all_slots sp c0 w1))) eqn:Hcol.
  - apply IH. apply for_slots_field. exact Hc.
  - destruct (for_slots_quiet all_slots c0 w1 eq_refl Hcol) as [Heq Hall].
    rewrite Heq. cbn. intros [= <- <-]. split; [exact Hc|exact Hall].
Qed.

End Search.

(** ** One pass of the animator *)

Lemma slot_in_all_slots (i : nat) :
  In i all_slots <-> (i < Z.to_nat maxSprites)%nat.
Proof. unfold all_slots. rewrite in_seq. lia. Qed.

Lemma pick_in_range (orc : Oracle) (w : World) :
  (Z.to_nat (to_u16 (fst (random orc maxSprites w))) < Z.to_nat maxSprites)%nat.
Proof.
  pose proof (random_range orc maxSprites w) as H.
  change maxSprites with 10 in *.
  rewrite to_u16_small by lia. lia.
Qed.

Lemma hide_wf (sp : Sprites) (k : nat) : sprites_wf sp -> sprites_wf (hide sp k).
Proof.
  intros (Hx & Hy & Hv). unfold sprites_wf, hide. cbn.
  rewrite length_insert. auto.
Qed.

Lemma place_wf (sp : Sprites) (k : nat) (x y : Z) :
  sprites_wf sp -> sprites_wf (place sp k x y).
Proof.
  intros (Hx & Hy & Hv). unfold sprites_wf, place. cbn.
  rewrite !length_insert. auto.
Qed.

(** A slot that is visible after [hide] was visible before and is not the
    hidden one. *)
Lemma hide_visible (sp : Sprites) (k i : nat) :
  onScreen (hide sp k) !! i = Some true ->
  i <> k /\ onScreen sp !! i = Some true.
Proof.
  unfold hide. cbn. intros H.
  destruct (decide (i = k)) as [->|Hne].
  - pose proof (lookup_lt_Some _ _ _ H) as Hlt. rewrite length_insert in Hlt.
    rewrite list_lookup_insert_eq in H by exact Hlt. discriminate.
  - rewrite list_lookup_insert_ne in H by congruence. auto.
Qed.

Lemma hide_no_overlap (sp : Sprites) (k : nat) :
  no_overlap sp -> no_overlap (hide sp k).
Proof.
  intros Hno i j x1 y1 x2 y2 Hij Hvi Hvj Hxi Hyi Hxj Hyj.
  apply hide_visible in Hvi as [_ Hvi]. apply hide_visible in Hvj as [_ Hvj].
  exact (Hno i j x1 y1 x2 y2 Hij Hvi Hvj Hxi Hyi Hxj Hyj).
Qed.

Lemma hide_in_field (sp : Sprites) (k : nat) :
  all_in_field sp -> all_in_field (hide sp k).
Proof.
  intros Hin i x y Hv Hx Hy. apply hide_visible in Hv as [_ Hv].
  exact (Hin i x y Hv Hx Hy).
Qed.

(** What [clear_of] says of a visible slot with known coordinates. *)
Lemma clear_of_apart (sp : Sprites) (x y : Z) (j : nat) (x2 y2 : Z) :
  clear_of sp x y j ->
  onScreen sp !! j = Some true ->
  posXArr sp !! j = Some x2 -> posYArr sp !! j = Some y2 ->
  apart x y x2 y2.
Proof.
  unfold clear_of, onScreen_at, posX_at, posY_at.
  intros Hc Hv Hx Hy. rewrite Hv, Hx, Hy in Hc. cbn in Hc.
  apply collides_apart. apply Hc. reflexivity.
Qed.

Lemma place_no_overlap (sp : Sprites) (k : nat) (x y : Z) :
  sprites_wf sp -> (k < Z.to_nat maxSprites)%nat ->
  (forall i, In i all_slots -> clear_of sp x y i) ->
  no_overlap sp -> no_overlap (place sp k x y).
Proof.
  intros (Hlx & Hly & Hlv) Hk Hclear Hno i j x1 y1 x2 y2 Hij.
  unfold place. cbn. intros Hvi Hvj Hxi Hyi Hxj Hyj.
  assert (Hin : forall n (b : bool), onScreen sp !! n = Some b -> In n all_slots).
  { intros n b Hn. apply slot_in_all_slots. rewrite <- Hlv.
    exact (lookup_lt_Some _ _ _ Hn). }
  destruct (decide (i = k)) as [->|Hik]; destruct (decide (j = k)) as [->|Hjk].
  - congruence.
  - rewrite list_lookup_insert_eq in Hxi by lia.
    rewrite list_lookup_insert_eq in Hyi by lia.
    rewrite list_lookup_insert_ne in Hvj by congruence.
    rewrite list_lookup_insert_ne in Hxj by congruence.
    rewrite list_lookup_insert_ne in Hyj by congruence.
    injection Hxi as <-. injection Hyi as <-.
    eapply clear_of_apart; eauto.
  - rewrite list_lookup_insert_eq in Hxj by lia.
    rewrite list_lookup_insert_eq in Hyj by lia.
    rewrite list_lookup_insert_ne in Hvi by congruence.
    rewrite list_lookup_insert_ne in Hxi by congruence.
    rewrite list_lookup_insert_ne in Hyi by congruence.
    injection Hxj as <-. injection Hyj as <-.
    apply apart_sym. eapply clear_of_apart; eauto.
  - rewrite list_lookup_insert_ne in Hvi by congruence.
    rewrite list_lookup_insert_ne in Hxi by congruence.
    rewrite list_lookup_insert_ne in Hyi by congruence.
    rewrite list_lookup_insert_ne in Hvj by congruence.
    rewrite list_lookup_insert_ne in Hxj by congruence.
    rewrite list_lookup_insert_ne in Hyj by congruence.
    exact (Hno i j x1 y1 x2 y2 Hij Hvi Hvj Hxi Hyi Hxj Hyj).
Qed.

Lemma place_in_field (sp : Sprites) (k : nat) (x y : Z) :
  sprites_wf sp -> (k < Z.to_nat maxSprites)%nat ->
  in_field x y -> all_in_field sp -> all_in_field (place sp k x y).
Proof.
  intros (Hlx & Hly & Hlv) Hk Hxy Hin i x1 y1. unfold place. cbn.
  intros Hv Hx Hy.
  destruct (decide (i = k)) as [->|Hik].
  - rewrite list_lookup_insert_eq in Hx by lia.
    rewrite list_lookup_insert_eq in Hy by lia.
    injection Hx as <-. injection Hy as <-. exact Hxy.
  - rewrite list_lookup_insert_ne in Hv by congruence.
    rewrite list_lookup_insert_ne in Hx by congruence.
    rewrite list_lookup_insert_ne in Hy by congruence.
    exact (Hin i x1 y1 Hv Hx Hy).
Qed.

(** The four ways a pass ends, with the slot [random(maxSprites)] picked. *)
Lemma sprite_tick_cases (orc : Oracle) (fuel : nat) (sp : Sprites) (w : World) :
  let k := Z.to_nat (to_u16 (fst (random orc maxSprites w))) in
  let r := fst (sprite_tick orc fuel sp w) in
  (k < Z.to_nat maxSprites)%nat /\
  ((onScreen_at sp k = true /\ r = (Erased k, hide sp k)) \/
   (onScreen_at sp k = false /\
    exists x y, r = (Placed k x y, place sp k x y) /\ in_field x y /\
                forall i, In i all_slots -> clear_of sp x y i) \/
   (onScreen_at sp k = false /\ r = (Aborted k, sp)) \/
   (onScreen_at sp k = false /\ r = (Unfinished k, sp))).
Proof.
  intros k r. split; [apply pick_in_range|].
  subst r. unfold sprite_tick, bind. fold k.
  destruct (onScreen_at sp k) eqn:Hv.
  - left. split; reflexivity.
  - right.
    match goal with
    | |- context [find_free orc fuel sp ?c ?w1] =>
        pose proof (find_free_accepts orc sp fuel c w1) as Hacc;
        destruct (fst (find_free orc fuel sp c w1)) as [x y| |] eqn:Hf
    end.
    + left. split; [reflexivity|]. exists x, y. split; [reflexivity|].
      apply Hacc; [apply fresh_in_field|reflexivity].
    + right. left. split; reflexivity.
    + right. right. split; reflexivity.
Qed.

Lemma no_sprites_inv : animator_inv no_sprites.
Proof.
  split; [|split].
  - repeat split.
  - intros i j x1 y1 x2 y2 _ Hv. cbn in Hv.
    apply lookup_replicate in Hv as [Hv _]. discriminate.
  - intros i x y Hv. cbn in Hv.
    apply lookup_replicate in Hv as [Hv _]. discriminate.
Qed.

Lemma sprite_tick_inv (orc : Oracle) (fuel : nat) (sp : Sprites) (w : World) :
  animator_inv sp -> animator_inv (snd (fst (sprite_tick orc fuel sp w))).
Proof.
  intros (Hwf & Hno & Hin).
  destruct (sprite_tick_cases orc fuel sp w) as [Hk Hcases].
  destruct Hcases as [[_ ->]|[(_ & x & y & -> & Hxy & Hclear)|[[_ ->]|[_ ->]]]];
    cbn [fst snd].
  - split; [apply hide_wf|split; [apply hide_no_overlap|apply hide_in_field]];
      assumption.
  - split; [apply place_wf; assumption|].
    split; [apply place_no_overlap|apply place_in_field]; assumption.
  - split; [|split]; assumption.
  - split; [|split]; assumption.
Qed.

Lemma pattern_loop_inv (orc : Oracle) (n fuel : nat) (sp : Sprites)
    (time1 : Z) (w : World) :
  animator_inv sp ->
  animator_inv (snd (fst (pattern_loop orc n fuel sp time1 w))).
Proof.
  revert sp time1 w. induction n as [|n IH]; intros sp time1 w Hinv;
    [exact Hinv|].
  cbn [pattern_loop]. unfold bind, yield, ret. cbn [fst snd].
  destruct (fst (read_changeButtonState orc w)); [exact Hinv|].
  match goal with |- context [if ?b then _ else _] => destruct b end.
  - match goal with
    | |- context [sprite_tick orc fuel sp ?w1] =>
        pose proof (sprite_tick_inv orc fuel sp w1 Hinv) as Hnext;
        destruct (fst (fst (sprite_tick orc fuel sp w1)))
    end; cbn [fst snd]; try exact Hnext; apply IH; exact Hnext.
  - apply IH. exact Hinv.
Qed.

Lemma lookup_onScreen (sp : Sprites) (k : nat) :
  sprites_wf sp -> (k < Z.to_nat maxSprites)%nat ->
  onScreen sp !! k = Some (onScreen_at sp k).
Proof.
  intros (_ & _ & Hv) Hk. unfold onScreen_at.
  destruct (lookup_lt_is_Some_2 (onScreen sp) k) as [b Hb]; [lia|].
  rewrite Hb. reflexivity.
Qed.

(** ** The flag during the search *)

Lemma flag_at_frame (orc : Oracle) (j : nat) (w w' : World) :
  globals w = globals w' -> flag_reads w = flag_reads w' ->
  flag_at orc w j = flag_at orc w' j.
Proof.
  revert w w'. induction j as [|j IH]; intros w w' Hg Hr.
  - cbn. rewrite Hg, Hr. reflexivity.
  - cbn [flag_at]. apply IH; cbn; rewrite ?Hg, ?Hr; reflexivity.
Qed.

(** With the flag up at check [k], the search is over by then: it found
    a free position at an earlier pass, or it returned at a check. *)
Lemma find_free_cut (orc : Oracle) (sp : Sprites) (k : nat) :
  forall (fuel : nat) (c : Candidate) (w : World),
    flag_at orc w k = true -> (k < fuel)%nat ->
    let r := find_free orc fuel sp c w in
    match fst r with
    | Free _ _ => (flag_reads (snd r) <= flag_reads w + k)%nat
    | Interrupted =>
        changeButtonState (globals (snd r)) = true /\
        (flag_reads (snd r) <= flag_reads w + k + 1)%nat
    | Searching => False
    end.
Proof.
  induction k as [|k IH]; intros fuel c w Hflag Hfuel;
    (destruct fuel as [|fuel]; [lia|]); cbn [find_free]; unfold bind, ret.
  - cbn [flag_at] in Hflag. rewrite Hflag. cbn [fst snd].
    split; [exact Hflag|cbn; lia].
  - cbn [flag_at] in Hflag.
    destruct (fst (read_changeButtonState orc w)) eqn:Hread; cbn [fst snd].
    + split; [exact Hread|cbn; lia].
    + set (c0 := {| xPos := xPos c; yPos := yPos c; collision := false |}).
      set (w1 := snd (read_changeButtonState orc w)) in *.
      destruct (for_slots_frame orc sp all_slots c0 w1) as [Hg Hr].
      destruct (collision (fst (for_slots orc all_slots sp c0 w1))) eqn:Hcol.
      * set (w2 := snd (for_slots orc all_slots sp c0 w1)) in *.
        assert (Hflag2 : flag_at orc w2 k = true).
        { rewrite (flag_at_frame orc k w2 w1 Hg Hr). exact Hflag. }
        specialize (IH fuel (fst (for_slots orc all_slots sp c0 w1)) w2
                      Hflag2 ltac:(lia)).
        cbn zeta in IH. rewrite Hr in IH.
        change (flag_reads w1) with (S (flag_reads w)) in IH.
        destruct (fst (find_free orc fuel sp _ w2)); [lia| |exact IH].
        destruct IH as [Hup Hle]. split; [exact Hup|lia].
      * cbn [fst snd]. rewrite Hr. cbn. lia.
Qed.

(** ** The animator's claims *)

(** Every run of [patternMode], however long, ends with slots that keep
    the animator's invariant. *)
Lemma patternMode_inv (orc : Oracle) (n fuel : nat) (w : World) :
  animator_inv (snd (fst (patternMode orc n fuel w))).
Proof.
  unfold patternMode, bind. apply pattern_loop_inv. exact no_sprites_inv.
Qed.

(** C1: no two distinct visible slots overlap.  Whatever a pass of the
    animator does (erase the picked slot, place it at an accepted
    candidate, or return on the flag), slots whose visible members are
    pairwise more than [spriteSize+1] apart in x or in y are so again
    after the pass; and so are the slots at every point of a run of
    [patternMode], which starts with no slot visible. *)
Theorem no_overlap_preserved (orc : Oracle) (fuel : nat) (sp : Sprites)
    (w : World) (n : nat) (w0 : World) :
  (sprites_wf sp -> no_overlap sp ->
   sprites_wf (snd (fst (sprite_tick orc fuel sp w))) /\
   no_overlap (snd (fst (sprite_tick orc fuel sp w)))) /\
  no_overlap (snd (fst (patternMode orc n fuel w0))).
Proof.
  split; [|apply patternMode_inv].
  intros Hwf Hno.
  destruct (sprite_tick_cases orc fuel sp w) as [Hk Hcases].
  destruct Hcases as [[_ ->]|[(_ & x & y & -> & _ & Hclear)|[[_ ->]|[_ ->]]]];
    cbn [fst snd].
  - split; [apply hide_wf|apply hide_no_overlap]; assumption.
  - split; [apply place_wf|apply place_no_overlap]; assumption.
  - split; assumption.
  - split; assumption.
Qed.

Lemma no_overlap_preserved_witness :
  let o := bench [3; 10; 20; 5; 15; 25; 100; 100] [] 1 in
  let t1 := sprite_tick o 5 no_sprites (start_world 0) in
  let sp1 := snd (fst t1) in
  (sprites_wf sp1 /\ no_overlap sp1) /\
  fst (fst (sprite_tick o 5 sp1 (snd t1))) = Placed 5 100 100 /\
  no_overlap (snd (fst (sprite_tick o 5 sp1 (snd t1)))).
Proof.
  intros o t1 sp1.
  assert (H1 : sprites_wf sp1 /\ no_overlap sp1).
  { destruct (sprite_tick_inv o 5 no_sprites (start_world 0) no_sprites_inv)
      as (Hwf & Hno & _).
    split; assumption. }
  split; [exact H1|]. split; [vm_compute; reflexivity|].
  destruct H1 as [Hwf Hno].
  exact (proj2 (proj1 (no_overlap_preserved o 5 sp1 (snd t1) O (start_world 0))
                  Hwf Hno)).
Defined.

(** The search does not outlast the flag.  If the flag is up by check
    number [k] of a pass (check 0 comes before the first scan), the pass
    makes no check after that one: it ended before (a visible slot
    erased, or a position accepted at an earlier scan), or it returned on
    the flag after at most [k+1] checks, with every slot unchanged. *)
Theorem abort_leaves_slots (orc : Oracle) (fuel k : nat) (sp : Sprites)
    (w : World) :
  flag_at orc w k = true ->
  (k < fuel)%nat ->
  let r := sprite_tick orc fuel sp w in
  match fst (fst r) with
  | Aborted _ =>
      snd (fst r) = sp /\
      changeButtonState (globals (snd r)) = true /\
      (flag_reads (snd r) <= flag_reads w + k + 1)%nat
  | Placed _ _ _ => (flag_reads (snd r) <= flag_reads w + k)%nat
  | Erased _ => flag_reads (snd r) = flag_reads w
  | Unfinished _ => False
  end.
Proof.
  intros Hflag Hfuel r. subst r. unfold sprite_tick, bind.
  destruct (onScreen_at sp _); [reflexivity|].
  match goal with
  | |- context [find_free orc fuel sp ?c ?w1] =>
      rewrite (flag_at_frame orc k w w1 eq_refl eq_refl) in Hflag;
      pose proof (find_free_cut orc sp k fuel c w1 Hflag Hfuel) as Hcut;
      cbn zeta in Hcut;
      destruct (fst (find_free orc fuel sp c w1)) as [x y| |]
  end; cbn [fst snd] in *.
  - exact Hcut.
  - destruct Hcut as [Hup Hle]. repeat split; assumption.
  - exact Hcut.
Qed.

Lemma abort_leaves_slots_witness :
  let o := bench [3; 10; 20; 5; 15; 25; 100; 100] [false; false; true] 1 in
  let t1 := sprite_tick o 5 no_sprites (start_world 0) in
  let t2 := sprite_tick o 5 (snd (fst t1)) (snd t1) in
  flag_at o (snd t1) 0 = false /\ flag_at o (snd t1) 1 = true /\
  fst (fst t2) = Aborted 5 /\ snd (fst t2) = snd (fst t1).
Proof.
  intros o t1 t2.
  assert (Hflag : flag_at o (snd t1) 1 = true) by (vm_compute; reflexivity).
  assert (Hfuel : (1 < 5)%nat) by lia.
  pose proof (abort_leaves_slots o 5 1 (snd (fst t1)) (snd t1) Hflag Hfuel)
    as H.
  assert (Hres : fst (fst t2) = Aborted 5) by (vm_compute; reflexivity).
  cbn zeta in H. fold t2 in H. rewrite Hres in H.
  split; [vm_compute; reflexivity|].
  split; [exact Hflag|]. split; [exact Hres|exact (proj1 H)].
Defined.

(** Passes that collide are skipped over: the search from the start is
    the search from where pass [k] starts. *)
Lemma find_free_pass (orc : Oracle) (sp : Sprites) (k : nat) :
  forall (fuel : nat) (c : Candidate) (w : World) (c' : Candidate)
         (w' : World),
    pass_start orc k sp c w = Some (c', w') ->
    find_free orc (k + fuel) sp c w = find_free orc fuel sp c' w'.
Proof.
  induction k as [|k IH]; intros fuel c w c' w' Hstart.
  - injection Hstart as <- <-. reflexivity.
  - cbn [pass_start] in Hstart. cbn [Nat.add find_free]. unfold bind, ret.
    destruct (fst (read_changeButtonState orc w)); [discriminate|].
    destruct (collision _); [|discriminate].
    apply IH. exact Hstart.
Qed.

(** C2 as stated fails: the flag is looked at only at the check that
    opens each pass.  An interrupt that fires after that check, while the
    pass scans the slots, does not stop a scan that finds no collision:
    the sprite is placed, and the flag is seen at the next poll of the
    animation loop.  Here the flag is down at the first check and up by
    what would be the second; the pass places slot 3 at (10, 20).  In
    the run of [patternMode] below the interrupt fires after the check
    of the first pass of the first tick: the mode returns at its next
    poll, with the sprite placed. *)
Lemma signal_during_clean_scan_places :
  let o := bench [3; 10; 20] [false; true] 300 in
  let w := start_world 0 in
  let r := sprite_tick o 5 no_sprites w in
  let o' := bench [3; 10; 20] [false; false; false; true] 300 in
  let m := patternMode o' 5 5 w in
  (flag_at o w 0 = false /\ flag_at o w 1 = true) /\
  (fst (fst r) = Placed 3 10 20 /\
   onScreen (snd (fst r)) !! 3%nat = Some true /\
   onScreen no_sprites !! 3%nat = Some false) /\
  (fst (fst m) = Cancelled /\ flag_reads (snd m) = 4%nat /\
   onScreen (snd (fst m)) !! 3%nat = Some true /\
   shown (out (snd m)) =
     [(0, "/pattern/bottom-message.bmp"); (600, "/pattern/heart.bmp")]).
Proof. vm_compute. repeat split. Qed.

(** C2, amended: a flag that reads up at the check of a pass stops the
    search there.  When the picked slot is not shown and the search gets
    to pass number [k] (pass 0 is the first, before any scan; the passes
    before [k] each found the flag down and a collision) and the check
    that opens this pass reads the flag up, the pass of the animator
    returns at that check: its result is [Aborted], positions and
    visibility of every slot are as before the pass, and nothing is
    scanned, re-rolled or drawn after the check. *)
Theorem raised_flag_aborts_at_check (orc : Oracle) (fuel k : nat)
    (sp : Sprites) (w : World) (c : Candidate) (w' : World) :
  let w1 := snd (random orc maxSprites w) in
  let w2 := snd (random orc xBorderSprite w1) in
  let w3 := snd (random orc yBorderSprite w2) in
  let spritePick := Z.to_nat (to_u16 (fst (random orc maxSprites w))) in
  let first := {| xPos := to_u16 (fst (random orc xBorderSprite w1));
                  yPos := to_u16 (fst (random orc yBorderSprite w2));
                  collision := false |} in
  onScreen_at sp spritePick = false ->
  pass_start orc k sp first w3 = Some (c, w') ->
  fst (read_changeButtonState orc w') = true ->
  (k < fuel)%nat ->
  sprite_tick orc fuel sp w
  = (Aborted spritePick, sp, snd (read_changeButtonState orc w')).
Proof.
  intros w1 w2 w3 spritePick first Hhidden Hstart Hup Hfuel.
  unfold sprite_tick, bind. fold spritePick. rewrite Hhidden.
  fold w1. fold w2. fold w3. fold first.
  replace fuel with (k + S (fuel - S k))%nat by lia.
  rewrite (find_free_pass orc sp k _ first w3 c w' Hstart).
  cbn [find_free]. unfold bind, ret. rewrite Hup. reflexivity.
Qed.

Lemma raised_flag_aborts_at_check_witness :
  let o := bench [3; 10; 20; 5; 15; 25; 100; 100] [false; false; true] 1 in
  let t1 := sprite_tick o 5 no_sprites (start_world 0) in
  let t2 := sprite_tick o 5 (snd (fst t1)) (snd t1) in
  fst (fst t1) = Placed 3 10 20 /\
  fst (fst t2) = Aborted 5 /\ snd (fst t2) = snd (fst t1) /\
  rand_calls (snd t2) = 8%nat /\ flag_reads (snd t2) = 3%nat /\
  out (snd t2) = (out (snd t1) ++ [SerialPrintln "Y Collision detected!"])%list.
Proof.
  intros o t1 t2. subst t2.
  set (sp1 := snd (fst t1)). set (wa := snd t1).
  set (w1 := snd (random o maxSprites wa)).
  set (w2 := snd (random o xBorderSprite w1)).
  set (w3 := snd (random o yBorderSprite w2)).
  set (first := {| xPos := to_u16 (fst (random o xBorderSprite w1));
                   yPos := to_u16 (fst (random o yBorderSprite w2));
                   collision := false |}).
  set (c := {| xPos := 100; yPos := 100; collision := true |}).
  set (w' := {| globals := {| changeButtonState := false; currentState := 0;
                            prevStateChange := 0 |};
                flag_reads := 2; rand_calls := 8; clock_calls := 0;
                now_ms := 0;
                out := [DrawBMP 0 "/pattern/heart.bmp" 10 20;
                        PrintStatus IMAGE_SUCCESS;
                        SerialPrintln "Y Collision detected!"] |}).
  assert (Hhidden : onScreen_at sp1
                      (Z.to_nat (to_u16 (fst (random o maxSprites wa)))) = false)
    by (vm_compute; reflexivity).
  assert (Hstart : pass_start o 1 sp1 first w3 = Some (c, w'))
    by (vm_compute; reflexivity).
  assert (Hup : fst (read_changeButtonState o w') = true)
    by (vm_compute; reflexivity).
  assert (Hfuel : (1 < 5)%nat) by lia.
  pose proof (raised_flag_aborts_at_check o 5 1 sp1 wa c w'
                Hhidden Hstart Hup Hfuel) as H.
  split; [vm_compute; reflexivity|].
  rewrite H. cbn [fst snd]. split; [vm_compute; reflexivity|].
  split; [reflexivity|]. repeat split; vm_compute; reflexivity.
Defined.

(** C5: an accepted placement is stored inside the field.  When a pass
    places the picked slot, the stored coordinates are the accepted ones
    and satisfy 0 <= x < screenWidth - spriteSize = 208 and
    0 <= y < screenLength - spriteSize - 100 = 188, whether the position
    was the first candidate or a re-rolled one. *)
Theorem placement_in_bounds (orc : Oracle) (fuel : nat) (sp : Sprites)
    (w : World) (k : nat) (x y : Z) :
  sprites_wf sp ->
  fst (fst (sprite_tick orc fuel sp w)) = Placed k x y ->
  let sp' := snd (fst (sprite_tick orc fuel sp w)) in
  (posXArr sp' !! k = Some x /\ posYArr sp' !! k = Some y /\
   onScreen sp' !! k = Some true) /\
  (0 <= x < screenWidth - spriteSize /\ screenWidth - spriteSize = 208) /\
  (0 <= y < screenLength - spriteSize - 100 /\
   screenLength - spriteSize - 100 = 188).
Proof.
  intros (Hlx & Hly & Hlv) Hres sp'. subst sp'.
  destruct (sprite_tick_cases orc fuel sp w) as [Hk Hcases].
  destruct Hcases as [[_ Hr]|[(_ & x' & y' & Hr & Hxy & _)|[[_ Hr]|[_ Hr]]]];
    rewrite Hr in *; cbn [fst snd] in *; try discriminate.
  injection Hres as <- <- <-.
  split; [|destruct Hxy as [Hx Hy]; repeat split; first [apply Hx|apply Hy]].
  unfold place; cbn [posXArr posYArr onScreen].
  repeat split; apply list_lookup_insert_eq; lia.
Qed.

Lemma placement_in_bounds_witness :
  let o := bench [3; 10; 20; 5; 15; 25; 100; 100] [] 1 in
  let t1 := sprite_tick o 5 no_sprites (start_world 0) in
  let t2 := sprite_tick o 5 (snd (fst t1)) (snd t1) in
  fst (fst t2) = Placed 5 100 100 /\
  posXArr (snd (fst t2)) !! 5%nat = Some 100 /\
  0 <= 100 < 208.
Proof.
  intros o t1 t2.
  assert (Hwf : sprites_wf (snd (fst t1))) by (repeat split).
  assert (Hres : fst (fst t2) = Placed 5 100 100) by (vm_compute; reflexivity).
  pose proof (placement_in_bounds o 5 (snd (fst t1)) (snd t1) 5 100 100
                Hwf Hres) as H.
  cbn zeta in H. destruct H as ((Hx & _ & _) & (Hb & Heq) & _).
  split; [exact Hres|]. split; [exact Hx|].
  rewrite <- Heq. exact Hb.
Defined.

(** C6: two completed passes in a row that pick the same slot leave its
    visibility flag as it was: the first pass flips it and the second
    flips it back. *)
Theorem toggle_round_trip (orc : Oracle) (fuel : nat) (sp : Sprites)
    (w : World) (k : nat) :
  sprites_wf sp ->
  let r1 := sprite_tick orc fuel sp w in
  let r2 := sprite_tick orc fuel (snd (fst r1)) (snd r1) in
  completed (fst (fst r1)) = true -> picked (fst (fst r1)) = k ->
  completed (fst (fst r2)) = true -> picked (fst (fst r2)) = k ->
  onScreen (snd (fst r1)) !! k = negb <$> onScreen sp !! k /\
  onScreen (snd (fst r2)) !! k = onScreen sp !! k.
Proof.
  intros Hwf r1 r2 Hc1 Hp1 Hc2 Hp2. subst r2 r1.
  destruct (sprite_tick_cases orc fuel sp w) as [Hk1 Hcases1].
  cbn zeta in Hcases1.
  set (k1 := Z.to_nat (to_u16 (fst (random orc maxSprites w)))) in *.
  assert (Hsp : onScreen sp !! k1 = Some (onScreen_at sp k1))
    by (apply lookup_onScreen; assumption).
  assert (Hlen : (k1 < length (onScreen sp))%nat)
    by (destruct Hwf as (_ & _ & ->); exact Hk1).
  destruct Hcases1
    as [[Hv1 Hr1]|[(Hv1 & x & y & Hr1 & _)|[[_ Hr1]|[_ Hr1]]]];
    rewrite Hr1 in *; cbn [fst snd completed picked] in *;
    try discriminate; subst k; rewrite Hsp, Hv1; cbn [fmap option_fmap option_map negb].
  - set (sp1 := hide sp k1) in *.
    assert (Hmid : onScreen sp1 !! k1 = Some false)
      by (apply list_lookup_insert_eq; exact Hlen).
    split; [exact Hmid|].
    match goal with
    | |- context [sprite_tick orc fuel sp1 ?w1] =>
        destruct (sprite_tick_cases orc fuel sp1 w1) as [Hk2 Hcases2];
        set (t2 := sprite_tick orc fuel sp1 w1) in *
    end.
    cbn zeta in Hcases2.
    destruct Hcases2
      as [[Hv2 Hr2]|[(Hv2 & x & y & Hr2 & _)|[[_ Hr2]|[_ Hr2]]]];
      rewrite Hr2 in *; cbn [fst snd completed picked] in *;
      try discriminate; rewrite Hp2 in *.
    + unfold onScreen_at in Hv2. rewrite Hmid in Hv2. discriminate.
    + unfold place. cbn [posXArr posYArr onScreen]. apply list_lookup_insert_eq.
      unfold sp1, hide. cbn [posXArr posYArr onScreen]. rewrite length_insert. exact Hlen.
  - set (sp1 := place sp k1 x y) in *.
    assert (Hmid : onScreen sp1 !! k1 = Some true)
      by (apply list_lookup_insert_eq; exact Hlen).
    split; [exact Hmid|].
    match goal with
    | |- context [sprite_tick orc fuel sp1 ?w1] =>
        destruct (sprite_tick_cases orc fuel sp1 w1) as [Hk2 Hcases2];
        set (t2 := sprite_tick orc fuel sp1 w1) in *
    end.
    cbn zeta in Hcases2.
    destruct Hcases2
      as [[Hv2 Hr2]|[(Hv2 & x' & y' & Hr2 & _)|[[_ Hr2]|[_ Hr2]]]];
      rewrite Hr2 in *; cbn [fst snd completed picked] in *;
      try discriminate; rewrite Hp2 in *.
    + unfold hide. cbn [posXArr posYArr onScreen]. apply list_lookup_insert_eq.
      unfold sp1, place. cbn [posXArr posYArr onScreen]. rewrite length_insert. exact Hlen.
    + unfold onScreen_at in Hv2. rewrite Hmid in Hv2. discriminate.
Qed.

Lemma toggle_round_trip_witness :
  let o := bench [3; 10; 20; 3] [] 1 in
  let r1 := sprite_tick o 5 no_sprites (start_world 0) in
  let r2 := sprite_tick o 5 (snd (fst r1)) (snd r1) in
  fst (fst r1) = Placed 3 10 20 /\ fst (fst r2) = Erased 3 /\
  onScreen (snd (fst r2)) !! 3%nat = onScreen no_sprites !! 3%nat.
Proof.
  intros o r1 r2.
  assert (Hwf : sprites_wf no_sprites) by (repeat split).
  assert (H1 : fst (fst r1) = Placed 3 10 20) by (vm_compute; reflexivity).
  assert (H2 : fst (fst r2) = Erased 3) by (vm_compute; reflexivity).
  split; [exact H1|]. split; [exact H2|].
  refine (proj2 (toggle_round_trip o 5 no_sprites (start_world 0) 3 Hwf
                   _ _ _ _)).
  - fold r1. rewrite H1. reflexivity.
  - fold r1. rewrite H1. reflexivity.
  - fold r1 r2. rewrite H2. reflexivity.
  - fold r1 r2. rewrite H2. reflexivity.
Defined.

(** C9: no sprite reaches the band of the bottom message.  At every
    point of a run of [patternMode], a visible slot has 0 <= y <= 187, so
    the rows y .. y + spriteSize - 1 of its square end at row 218 at the
    latest, above row 220 where [patternMode] draws the message. *)
Theorem message_band_clear (orc : Oracle) (n fuel : nat) (w : World)
    (i : nat) (y : Z) :
  let sp := snd (fst (patternMode orc n fuel w)) in
  onScreen sp !! i = Some true -> posYArr sp !! i = Some y ->
  0 <= y <= 187 /\ y + spriteSize - 1 <= 218 /\ y + spriteSize - 1 < 220.
Proof.
  intros sp Hv Hy.
  destruct (patternMode_inv orc n fuel w) as ((Hlx & _ & Hlv) & _ & Hin).
  fold sp in Hlx, Hlv, Hin.
  destruct (lookup_lt_is_Some_2 (posXArr sp) i) as [x Hx].
  { rewrite Hlx, <- Hlv. exact (lookup_lt_Some _ _ _ Hv). }
  destruct (Hin i x y Hv Hx Hy) as [_ Hrange].
  unfold screenLength, spriteSize in *. lia.
Qed.

Lemma message_band_clear_witness :
  let o := bench [3; 10; 20; 5; 15; 25; 100; 100; 3; 7]
             [false; false; false; false; false; false; false; true] 300 in
  let sp := snd (fst (patternMode o 20 5 (start_world 0))) in
  onScreen sp !! 5%nat = Some true /\ posYArr sp !! 5%nat = Some 100 /\
  100 + spriteSize - 1 < 220.
Proof.
  intros o sp.
  assert (Hv : onScreen sp !! 5%nat = Some true) by (vm_compute; reflexivity).
  assert (Hy : posYArr sp !! 5%nat = Some 100) by (vm_compute; reflexivity).
  split; [exact Hv|]. split; [exact Hy|].
  exact (proj2 (proj2 (message_band_clear o 20 5 (start_world 0) 5 100 Hv Hy))).
Defined.

(** ** Drawing a centred image *)

(** What [displayImageTFT] sends out, and that it touches nothing else. *)
Lemma displayImageTFT_log (orc : Oracle) (filename : string) (w : World) :
  let d := reader_bmpDimensions orc filename 0 0 in
  let x := to_i16 (to_i32 (screenWidth - snd (fst d)) ÷ 2) in
  let y := to_i16 (to_i32 (screenLength - snd d) ÷ 2) in
  out (snd (displayImageTFT orc filename w)) =
    (out w ++ [PrintStatus (fst (fst d)); DrawBMP (now_ms w) filename x y;
               PrintStatus (reader_drawBMP orc filename x y)])%list.
Proof.
  unfold displayImageTFT, printStatus, drawBMP, emit, bind.
  cbn [fst snd out now_ms]. rewrite <- !app_assoc. reflexivity.
Qed.

(** C10: a failed dimension lookup does not skip the draw.  Whatever the
    status of [bmpDimensions], [displayImageTFT] reports it and then
    makes exactly one draw attempt, at coordinates computed from the
    width and height as the call left them; when the call fails and
    leaves its out-parameters alone, they still hold 0 and the attempt is
    at (screenWidth/2, screenLength/2) = (120, 160). *)
Theorem failed_lookup_still_draws (orc : Oracle) (filename : string)
    (w : World) :
  let d := reader_bmpDimensions orc filename 0 0 in
  let stat := fst (fst d) in
  let width := snd (fst d) in
  let height := snd d in
  let x := to_i16 (to_i32 (screenWidth - width) ÷ 2) in
  let y := to_i16 (to_i32 (screenLength - height) ÷ 2) in
  out (snd (displayImageTFT orc filename w)) =
    (out w ++ [PrintStatus stat; DrawBMP (now_ms w) filename x y;
               PrintStatus (reader_drawBMP orc filename x y)])%list /\
  (stat <> IMAGE_SUCCESS -> width = 0 -> height = 0 ->
   x = screenWidth ÷ 2 /\ y = screenLength ÷ 2 /\ x = 120 /\ y = 160).
Proof.
  intros d stat width height x y. split.
  - apply displayImageTFT_log.
  - intros _ Hw Hh. subst x y. rewrite Hw, Hh. repeat split.
Qed.

Lemma failed_lookup_still_draws_witness :
  let o := {| irq := fun _ => false; rand_raw := fun _ => 0;
              clock := fun _ => 0;
              reader_bmpDimensions :=
                fun _ w0 h0 => (IMAGE_ERR_FILE_NOT_FOUND, w0, h0);
              reader_drawBMP := fun _ _ _ => IMAGE_ERR_FILE_NOT_FOUND |} in
  out (snd (displayImageTFT o "/missing.bmp" (start_world 0))) =
    [PrintStatus IMAGE_ERR_FILE_NOT_FOUND;
     DrawBMP 0 "/missing.bmp" 120 160;
     PrintStatus IMAGE_ERR_FILE_NOT_FOUND] /\
  to_i16 (to_i32 (screenWidth - 0) ÷ 2) = 120.
Proof.
  intros o.
  pose proof (failed_lookup_still_draws o "/missing.bmp" (start_world 0)) as H.
  cbn zeta in H. destruct H as [Hout Hxy].
  split; [exact Hout|].
  refine (proj1 (proj2 (proj2 (Hxy _ eq_refl eq_refl)))).
  discriminate.
Defined.

(** ** The mode functions leave the mode state alone *)

Lemma same_mode_refl (g : Globals) : same_mode g g.
Proof. split; reflexivity. Qed.

Lemma same_mode_trans (g1 g2 g3 : Globals) :
  same_mode g1 g2 -> same_mode g2 g3 -> same_mode g1 g3.
Proof. intros [H1 H2] [H3 H4]. split; congruence. Qed.

Lemma keeps_ret {A} (a : A) : keeps_mode (ret a).
Proof. intros w. apply same_mode_refl. Qed.

Lemma keeps_bind {A B} (m : M A) (k : A -> M B) :
  keeps_mode m -> (forall a, keeps_mode (k a)) -> keeps_mode (bind m k).
Proof.
  intros Hm Hk w. unfold bind.
  exact (same_mode_trans _ _ _ (Hm w) (Hk (fst (m w)) (snd (m w)))).
Qed.

Lemma keeps_read (orc : Oracle) : keeps_mode (read_changeButtonState orc).
Proof.
  intros w. unfold read_changeButtonState. cbn [snd globals].
  destruct (irq orc (flag_reads w)); split; reflexivity.
Qed.

Lemma keeps_millis (orc : Oracle) : keeps_mode (millis orc).
Proof. intros w. apply same_mode_refl. Qed.

Lemma keeps_random (orc : Oracle) (howbig : Z) : keeps_mode (random orc howbig).
Proof. intros w. apply same_mode_refl. Qed.

Lemma keeps_emit (o : Output) : keeps_mode (emit o).
Proof. intros w. apply same_mode_refl. Qed.

Lemma keeps_drawBMP (orc : Oracle) (f : string) (x y : Z) :
  keeps_mode (drawBMP orc f x y).
Proof. intros w. apply same_mode_refl. Qed.

Create HintDb keeps.
#[local] Hint Resolve keeps_ret keeps_read keeps_millis keeps_random
  keeps_emit keeps_drawBMP : keeps.

(** Goes through a computation bind by bind and branch by branch. *)
Ltac keeps_step :=
  match goal with
  | |- keeps_mode (bind _ _) => apply keeps_bind; [|intros ?]
  | |- keeps_mode (if ?b then _ else _) => destruct b
  | |- keeps_mode (match ?x with _ => _ end) => destruct x
  | |- keeps_mode yield => apply keeps_ret
  | |- keeps_mode (printStatus _) => apply keeps_emit
  | |- keeps_mode _ => solve [auto with keeps]
  end.

Lemma keeps_displayImageTFT (orc : Oracle) (f : string) :
  keeps_mode (displayImageTFT orc f).
Proof. unfold displayImageTFT. repeat keeps_step. Qed.

Lemma keeps_displayImageTFT_at (orc : Oracle) (f : string) (x y : Z) :
  keeps_mode (displayImageTFT_at orc f x y).
Proof. unfold displayImageTFT_at. repeat keeps_step. Qed.

#[local] Hint Resolve keeps_displayImageTFT keeps_displayImageTFT_at : keeps.

Lemma keeps_for_slots (orc : Oracle) (slots : list nat) (sp : Sprites) :
  forall c, keeps_mode (for_slots orc slots sp c).
Proof.
  induction slots as [|i rest IH]; intros c; cbn [for_slots].
  - apply keeps_ret.
  - apply keeps_bind; [|exact IH]. unfold check_slot. repeat keeps_step.
Qed.

#[local] Hint Resolve keeps_for_slots : keeps.

Lemma keeps_find_free (orc : Oracle) (fuel : nat) (sp : Sprites) :
  forall c, keeps_mode (find_free orc fuel sp c).
Proof.
  induction fuel as [|fuel IH]; intros c; cbn [find_free].
  - apply keeps_ret.
  - repeat keeps_step.
Qed.

#[local] Hint Resolve keeps_find_free : keeps.

Lemma keeps_sprite_tick (orc : Oracle) (fuel : nat) (sp : Sprites) :
  keeps_mode (sprite_tick orc fuel sp).
Proof. unfold sprite_tick. repeat keeps_step. Qed.

#[local] Hint Resolve keeps_sprite_tick : keeps.

Lemma keeps_patternMode (orc : Oracle) (n fuel : nat) :
  keeps_mode (patternMode orc n fuel).
Proof.
  assert (Hloop : forall sp time1,
             keeps_mode (pattern_loop orc n fuel sp time1)).
  { induction n as [|n IH]; intros sp time1; cbn [pattern_loop].
    - apply keeps_ret.
    - repeat keeps_step. }
  unfold patternMode. repeat keeps_step.
Qed.

Lemma keeps_final_delay (orc : Oracle) (fuel : nat) (time_1 : Z) :
  keeps_mode (final_delay orc fuel time_1).
Proof.
  induction fuel as [|fuel IH]; cbn [final_delay].
  - apply keeps_ret.
  - repeat keeps_step.
Qed.

#[local] Hint Resolve keeps_final_delay : keeps.

Lemma keeps_displayAllImagesDir (orc : Oracle) (fuel : nat)
    (files : list string) (root : string) (copy : bool) :
  keeps_mode (displayAllImagesDir orc fuel files root copy).
Proof.
  assert (Hrest : forall entry dir time_1,
             keeps_mode (show_rest orc fuel root entry dir time_1)).
  { induction fuel as [|fuel IH]; intros [name|] dir time_1; cbn [show_rest];
      try solve [auto with keeps].
    repeat keeps_step. }
  unfold displayAllImagesDir. repeat keeps_step.
Qed.

(** ** The mode state machine *)

(** [loop_head] computes [debounce] of the two clock readings it makes. *)
Lemma loop_head_debounce (orc : Oracle) (w : World) :
  globals (snd (loop_head orc w)) =
    debounce (to_u32 (clock orc (clock_calls w)))
             (to_u32 (clock orc (S (clock_calls w))))
             (globals (snd (read_changeButtonState orc w))).
Proof.
  unfold loop_head, debounce, bind, get_globals. cbn [fst snd].
  set (w1 := snd (read_changeButtonState orc w)).
  change (fst (read_changeButtonState orc w))
    with (changeButtonState (globals w1)).
  destruct (changeButtonState (globals w1)); [|reflexivity].
  cbn [andb]. change (fst (millis orc w1)) with (to_u32 (clock orc (clock_calls w))).
  destruct (debounced _ (globals w1)); reflexivity.
Qed.

(** A whole call of [loop] changes the mode state as [debounce] does:
    the mode function it enters writes neither variable. *)
Lemma loop_mode_state (orc : Oracle) (n fuel : nat) (files : list string)
    (w : World) :
  same_mode
    (debounce (to_u32 (clock orc (clock_calls w)))
              (to_u32 (clock orc (S (clock_calls w))))
              (globals (snd (read_changeButtonState orc w))))
    (globals (snd (loop orc n fuel files w))).
Proof.
  rewrite <- loop_head_debounce. unfold loop, bind, get_globals.
  cbn [fst snd].
  destruct (mode_of _).
  - apply keeps_displayAllImagesDir.
  - apply (keeps_bind (patternMode orc n fuel) (fun r => ret (fst r)));
      [apply keeps_patternMode|intros r; apply keeps_ret].
Qed.

Lemma next_state_range (c : Z) : next_state c = 0 \/ next_state c = 1.
Proof.
  unfold next_state, to_u8, maxStates.
  pose proof (Z.mod_pos_bound (c + 1) 256 ltac:(lia)) as Hm.
  destruct ((c + 1) mod 256 >=? 2) eqn:E; [left; reflexivity|].
  rewrite Z.geb_leb, Z.leb_gt in E. lia.
Qed.

(** An accepted change is a change: the state never stays where it was. *)
Lemma next_state_changes (c : Z) : next_state c <> c.
Proof.
  destruct (Z.eq_dec c 0) as [->|H0]; [discriminate|].
  destruct (Z.eq_dec c 1) as [->|H1]; [discriminate|].
  destruct (next_state_range c); lia.
Qed.

Lemma debounce_clears (now now' : Z) (g : Globals) :
  changeButtonState (debounce now now' g) = false.
Proof.
  unfold debounce.
  destruct (changeButtonState g && debounced now g); reflexivity.
Qed.

(** A board that idles in [setup] ignores whatever happens. *)
Lemma idle_board_step (b : Board) (ev : Stimulus) :
  phase b = Idling -> isr_attached b = false -> board_step b ev = b.
Proof.
  intros Hp Ha. destruct ev as [t|now now']; cbn [board_step].
  - rewrite Ha. reflexivity.
  - rewrite Hp. reflexivity.
Qed.

(** C8: a card that does not mount is the end.  After [setup] with a
    failing [SD.begin], whatever button presses and turns of the main
    context follow, the board idles in [setup], the panel shows the error
    screen and nothing else, and neither the slideshow nor the pattern
    mode is ever entered. *)
Theorem mount_failure_is_terminal (boot_ms : Z) (evs : list Stimulus) :
  let b := board_run (power_on boot_ms false) evs in
  phase b = Idling /\
  sent b = error_screen /\
  entered b = [] /\
  changeButtonState (vars b) = false /\ currentState (vars b) = 0.
Proof.
  assert (Hrun : board_run (power_on boot_ms false) evs
                 = power_on boot_ms false).
  { unfold board_run. induction evs as [|ev evs IH]; [reflexivity|].
    cbn [fold_left]. rewrite idle_board_step by reflexivity. exact IH. }
  cbn zeta. rewrite Hrun. repeat split.
Qed.

(** C3: a bounce of the button gets through the debounce.  The window
    of 50 ms is counted from the stored time of the accepted change to
    the turn of [loop] that next looks at the flag, and the mode function
    in between may be busy for longer than that.  Two presses 20 ms
    apart, the first accepted at once and the second seen 280 ms later,
    give two changes of state where the debounce should have let one
    through. *)
Lemma debounce_by_raise_time_fails :
  let b := power_on 0 true in
  let evs := [Press 100; Turn 100 100; Press 120; Turn 400 400] in
  chronological 0 evs = true /\
  120 - 100 < 50 /\
  currentState (vars (board_run b [Press 100; Turn 100 100])) = 1 /\
  currentState (vars (board_run b evs)) = 0 /\
  transitions b evs = 2%nat.
Proof. repeat split. Qed.

(** The same run in the world of the sketch.  The first call of [loop]
    finds the flag up at 100 ms, accepts it and enters [patternMode]; the
    button bounces while the background is drawn, and the first poll of
    [patternMode] returns; the second call of [loop] reads the clock at
    400 ms, more than 50 ms after the 100 ms it stored, and changes the
    state back. *)
Lemma raise_time_run_in_the_sketch :
  let o := {| irq := fun n => nth n [true; true] false;
              rand_raw := fun _ => 0;
              clock := fun n => nth n [100; 100; 390; 400; 400] 400;
              reader_bmpDimensions := fun _ _ _ => (IMAGE_SUCCESS, 240, 320);
              reader_drawBMP := fun _ _ _ => IMAGE_SUCCESS |} in
  let r1 := loop o 10 5 [] (start_world 0) in
  let r2 := loop o 0 5 [] (snd r1) in
  fst r1 = Cancelled /\
  currentState (globals (snd r1)) = 1 /\
  prevStateChange (globals (snd r1)) = 100 /\
  currentState (globals (snd r2)) = 0.
Proof. vm_compute. repeat split. Qed.

(** What the test on line 250 does hold back: when a press is accepted
    at a turn and the next press is looked at by a turn whose clock
    reading is less than 50 ms (on [uint32_t]) after the reading stored
    at the acceptance, the two presses make exactly one change of state;
    and every turn of [loop] leaves the flag cleared, change or no
    change. *)
Theorem debounce_by_observation (b : Board) (t1 a a' t2 c c' : Z) :
  phase b = Looping -> isr_attached b = true ->
  debounced (to_u32 a) (vars b) = true ->
  elapsed (to_u32 c) (to_u32 a') < 50 ->
  let evs := [Press t1; Turn a a'; Press t2; Turn c c'] in
  transitions b evs = 1%nat /\
  currentState (vars (board_run b evs)) = next_state (currentState (vars b)) /\
  changeButtonState (vars (board_run b [Press t1; Turn a a'])) = false /\
  changeButtonState (vars (board_run b evs)) = false.
Proof.
  intros Hp Ha Hold Hnew evs. subst evs.
  unfold board_run. cbn [transitions fold_left board_step].
  rewrite Ha, Hp. cbn [phase isr_attached vars].
  assert (H1 : debounce (to_u32 a) (to_u32 a') (modeChangeInterupt (vars b))
               = change_state (to_u32 a') (vars b)).
  { unfold debounce, debounced in *. cbn [modeChangeInterupt changeButtonState
      prevStateChange andb]. rewrite Hold. reflexivity. }
  rewrite H1.
  assert (H2 : debounce (to_u32 c) (to_u32 c')
                 (modeChangeInterupt (change_state (to_u32 a') (vars b)))
               = clear_flag (modeChangeInterupt
                               (change_state (to_u32 a') (vars b)))).
  { unfold debounce, debounced. cbn [modeChangeInterupt change_state
      changeButtonState prevStateChange andb].
    destruct (elapsed (to_u32 c) (to_u32 a') >=? 50) eqn:E; [|reflexivity].
    rewrite Z.geb_leb, Z.leb_le in E. lia. }
  rewrite H2.
  cbn [modeChangeInterupt change_state clear_flag currentState
       changeButtonState].
  rewrite !Z.eqb_refl.
  destruct (next_state (currentState (vars b)) =? currentState (vars b)) eqn:E.
  - apply Z.eqb_eq in E. destruct (next_state_changes _ E).
  - repeat split.
Qed.

Lemma debounce_by_observation_witness :
  let b := power_on 0 true in
  let evs := [Press 100; Turn 100 100; Press 120; Turn 130 130] in
  elapsed (to_u32 130) (to_u32 100) < 50 /\
  transitions b evs = 1%nat /\
  changeButtonState (vars (board_run b evs)) = false.
Proof.
  intros b evs.
  assert (Hnew : elapsed (to_u32 130) (to_u32 100) < 50)
    by (vm_compute; reflexivity).
  pose proof (debounce_by_observation b 100 100 100 120 130 130
                eq_refl eq_refl eq_refl Hnew) as H.
  cbn zeta in H. destruct H as (Hone & _ & _ & Hclear).
  split; [exact Hnew|]. split; [exact Hone|exact Hclear].
Defined.

(** ** The slideshow *)

Lemma shown_app (l1 l2 : list Output) :
  shown (l1 ++ l2) = (shown l1 ++ shown l2)%list.
Proof.
  induction l1 as [|o l1 IH]; [reflexivity|].
  destruct o; cbn [shown app]; rewrite IH; reflexivity.
Qed.

(** The last loop never looks at the flag: it cannot return early. *)
Lemma final_delay_deaf (orc : Oracle) (fuel : nat) (time_1 : Z) (w : World) :
  fst (final_delay orc fuel time_1 w) <> Cancelled /\
  flag_reads (snd (final_delay orc fuel time_1 w)) = flag_reads w /\
  globals (snd (final_delay orc fuel time_1 w)) = globals w.
Proof.
  revert w. induction fuel as [|fuel IH]; intros w.
  - repeat split. discriminate.
  - cbn [final_delay]. unfold bind, yield, ret.
    destruct (negb _).
    + apply (IH (snd (millis orc w))).
    + repeat split. discriminate.
Qed.

Section SlideshowTiming.

Variable orc : Oracle.
Variable slack : Z.

(** The button is left alone, and the clock runs: consecutive readings
    never go back and are at most [slack] apart, and a full interval
    always passes in the end. *)
Hypothesis quiet : forall n, irq orc n = false.
Hypothesis steady :
  forall n, clock orc n <= clock orc (S n) <= clock orc n + slack.
Hypothesis slack_bound : slack < 4294967296 - slideshowRefreshTime.
Hypothesis runs :
  forall n, exists m, clock orc n + slideshowRefreshTime <= clock orc (n + m).

Lemma final_delay_ends (m : nat) :
  forall (n : nat) (tau : Z) (w : World),
    clock_calls w = n ->
    0 <= clock orc n - tau < slideshowRefreshTime + slack ->
    slideshowRefreshTime <= clock orc (n + m) - tau ->
    exists j : nat,
      slideshowRefreshTime <= clock orc (n + j) - tau
        < slideshowRefreshTime + slack /\
      forall f : nat,
        let r := final_delay orc (S j + f) (to_u32 tau) w in
        fst r = Finished /\ out (snd r) = out w /\
        now_ms (snd r) = clock orc (n + j).
Proof.
  induction m as [|m IH]; intros n tau w Hn Hnear Hfar.
  - exists O. rewrite Nat.add_0_r in *. split; [lia|].
    intros f. cbn [final_delay Nat.add]. unfold bind, ret.
    change (fst (millis orc w)) with (to_u32 (clock orc (clock_calls w))).
    rewrite Hn, elapsed_exact by lia.
    destruct (clock orc n - tau >=? slideshowRefreshTime) eqn:E.
    + cbn [negb fst snd]. repeat split. cbn. rewrite Hn. reflexivity.
    + rewrite Z.geb_leb, Z.leb_gt in E. lia.
  - destruct (Z_lt_le_dec (clock orc n - tau) slideshowRefreshTime) as [Hlt|Hge].
    + pose proof (steady n) as Hs.
      destruct (IH (S n) tau (snd (millis orc w))) as (j & Hj & Hrun).
      * cbn. rewrite Hn. reflexivity.
      * lia.
      * replace (S n + m)%nat with (n + S m)%nat by lia. exact Hfar.
      * exists (S j). replace (n + S j)%nat with (S n + j)%nat by lia.
        split; [exact Hj|].
        intros f. cbn [final_delay Nat.add]. unfold bind, yield, ret.
        change (fst (millis orc w)) with (to_u32 (clock orc (clock_calls w))).
        rewrite Hn, elapsed_exact by lia.
        destruct (clock orc n - tau >=? slideshowRefreshTime) eqn:E.
        { rewrite Z.geb_leb, Z.leb_le in E. lia. }
        cbn [negb fst snd]. exact (Hrun f).
    + exists O. rewrite Nat.add_0_r. split; [lia|].
      intros f. cbn [final_delay Nat.add]. unfold bind, ret.
      change (fst (millis orc w)) with (to_u32 (clock orc (clock_calls w))).
      rewrite Hn, elapsed_exact by lia.
      destruct (clock orc n - tau >=? slideshowRefreshTime) eqn:E.
      * cbn [negb fst snd]. repeat split. cbn. rewrite Hn. reflexivity.
      * rewrite Z.geb_leb, Z.leb_gt in E. lia.
Qed.

Lemma quiet_read (w : World) :
  changeButtonState (globals w) = false ->
  fst (read_changeButtonState orc w) = false /\
  globals (snd (read_changeButtonState orc w)) = globals w.
Proof.
  intros Hflag. unfold read_changeButtonState. cbn [fst snd globals].
  rewrite quiet. split; [exact Hflag|reflexivity].
Qed.

Lemma show_rest_done (f : nat) (root : string) (dir : list string)
    (t : Z) (w : World) :
  show_rest orc f root None dir t w = final_delay orc f t w.
Proof. destruct f; reflexivity. Qed.

(** One poll of [while(entry)] before the interval is over. *)
Lemma show_rest_early (root name : string) (dir : list string) (tau : Z)
    (w : World) (f : nat) :
  changeButtonState (globals w) = false ->
  0 <= clock orc (clock_calls w) - tau < slideshowRefreshTime ->
  show_rest orc (S f) root (Some name) dir (to_u32 tau) w =
  show_rest orc f root (Some name) dir (to_u32 tau)
    (snd (millis orc (snd (read_changeButtonState orc w)))).
Proof.
  intros Hflag Hearly. pose proof (steady O) as Hs.
  cbn [show_rest]. unfold bind, yield, ret.
  destruct (quiet_read w Hflag) as [-> _].
  change (fst (millis orc (snd (read_changeButtonState orc w))))
    with (to_u32 (clock orc (clock_calls w))).
  rewrite elapsed_exact by lia.
  destruct (_ >=? slideshowRefreshTime) eqn:E; [|reflexivity].
  rewrite Z.geb_leb, Z.leb_le in E. lia.
Qed.

(** The poll of [while(entry)] that finds the interval over. *)
Lemma show_rest_due (root name : string) (dir : list string) (tau : Z)
    (w : World) (f : nat) :
  fits_buffer name ->
  changeButtonState (globals w) = false ->
  slideshowRefreshTime <= clock orc (clock_calls w) - tau < 4294967296 ->
  show_rest orc (S f) root (Some name) dir (to_u32 tau) w =
  show_rest orc f root (fst (openNextFile dir)) (snd (openNextFile dir))
    (to_u32 (clock orc (S (clock_calls w))))
    (snd (millis orc
       (snd (displayImageTFT orc (root ++ name)
          (snd (millis orc (snd (read_changeButtonState orc w)))))))).
Proof.
  intros Hfit Hflag Hdue.
  assert (HT : 0 <= slideshowRefreshTime) by (unfold slideshowRefreshTime; lia).
  cbn [show_rest]. unfold bind, yield, ret.
  rewrite (getName_fits name Hfit).
  destruct (quiet_read w Hflag) as [-> _].
  change (fst (millis orc (snd (read_changeButtonState orc w))))
    with (to_u32 (clock orc (clock_calls w))).
  rewrite elapsed_exact by lia.
  destruct (_ >=? slideshowRefreshTime) eqn:E; [reflexivity|].
  rewrite Z.geb_leb, Z.leb_gt in E. lia.
Qed.

(** Waiting for the next image: the loop polls until the first clock
    reading at least one interval after [tau], shows the image then and
    reads the clock again. *)
Lemma show_waits (root name : string) (dir : list string) (m : nat) :
  fits_buffer name ->
  forall (n : nat) (tau : Z) (w : World),
    changeButtonState (globals w) = false ->
    clock_calls w = n ->
    0 <= clock orc n - tau < slideshowRefreshTime + slack ->
    slideshowRefreshTime <= clock orc (n + m) - tau ->
    exists (j : nat) (w' : World),
      slideshowRefreshTime <= clock orc (n + j) - tau
        < slideshowRefreshTime + slack /\
      changeButtonState (globals w') = false /\
      clock_calls w' = S (S (n + j)) /\
      now_ms w' = clock orc (S (n + j)) /\
      shown (out w') =
        (shown (out w) ++ [(clock orc (n + j), (root ++ name)%string)])%list /\
      forall f : nat,
        show_rest orc (S j + f) root (Some name) dir (to_u32 tau) w =
        show_rest orc f root (fst (openNextFile dir)) (snd (openNextFile dir))
          (to_u32 (clock orc (S (n + j)))) w'.
Proof.
  intros Hfit.
  assert (Hdue : forall (n : nat) (tau : Z) (w : World),
    changeButtonState (globals w) = false ->
    clock_calls w = n ->
    slideshowRefreshTime <= clock orc n - tau < slideshowRefreshTime + slack ->
    exists (j : nat) (w' : World),
      slideshowRefreshTime <= clock orc (n + j) - tau
        < slideshowRefreshTime + slack /\
      changeButtonState (globals w') = false /\
      clock_calls w' = S (S (n + j)) /\
      now_ms w' = clock orc (S (n + j)) /\
      shown (out w') =
        (shown (out w) ++ [(clock orc (n + j), (root ++ name)%string)])%list /\
      forall f : nat,
        show_rest orc (S j + f) root (Some name) dir (to_u32 tau) w =
        show_rest orc f root (fst (openNextFile dir)) (snd (openNextFile dir))
          (to_u32 (clock orc (S (n + j)))) w').
  { intros n tau w Hflag Hn Hnow.
    exists O.
    exists (snd (millis orc
              (snd (displayImageTFT orc (root ++ name)
                 (snd (millis orc (snd (read_changeButtonState orc w)))))))).
    rewrite Nat.add_0_r.
    split; [exact Hnow|].
    split; [|split; [|split; [|split]]];
      [| | | |intros f; cbn [Nat.add]; rewrite <- Hn;
              apply show_rest_due; [exact Hfit|exact Hflag|rewrite Hn; lia]].
    - unfold millis, displayImageTFT, printStatus, drawBMP, emit,
        read_changeButtonState, bind.
      cbn [fst snd globals]. rewrite quiet. exact Hflag.
    - cbn. rewrite Hn. reflexivity.
    - cbn. rewrite Hn. reflexivity.
    - cbn [out millis snd]. rewrite displayImageTFT_log, shown_app.
      cbn. rewrite Hn. reflexivity. }
  induction m as [|m IH]; intros n tau w Hflag Hn Hnear Hfar.
  - rewrite Nat.add_0_r in Hfar. apply Hdue; [assumption..|lia].
  - destruct (Z_lt_le_dec (clock orc n - tau) slideshowRefreshTime)
      as [Hlt|Hge]; [|apply Hdue; [assumption..|lia]].
    pose proof (steady n) as Hs.
    destruct (IH (S n) tau (snd (millis orc (snd (read_changeButtonState orc w)))))
      as (j & w' & Hj & Hflag' & Hcalls & Hnow & Hshown & Hrun).
    + cbn [globals millis snd]. rewrite (proj2 (quiet_read w Hflag)).
      exact Hflag.
    + cbn. rewrite Hn. reflexivity.
    + lia.
    + replace (S n + m)%nat with (n + S m)%nat by lia. exact Hfar.
    + exists (S j), w'. replace (n + S j)%nat with (S n + j)%nat by lia.
      split; [exact Hj|]. split; [exact Hflag'|]. split; [exact Hcalls|].
      split; [exact Hnow|]. split; [exact Hshown|].
      intros f. cbn [Nat.add]. rewrite show_rest_early; [apply Hrun|exact Hflag|].
      rewrite Hn. lia.
Qed.

(** C7: the timing of an undisturbed slideshow of three images.  With
    the flag never raised, a clock whose consecutive readings are at
    most [slack] apart and three names that fit the 50-byte name buffer
    (at most 49 characters), [displayAllImagesDir] on [A; B; C] returns (given
    enough iterations, it ends) after having drawn A at the first clock
    reading, before any wait, B one interval T = 4000 ms after A, C two
    intervals after A and returning three intervals after A, each up to
    the slack of the clock readings in between: T <= tB - tA < T + slack,
    2T <= tC - tA < 2T + 3 slack, 3T <= tR - tA < 3T + 5 slack. *)
Theorem slideshow_timing (A B C root : string) (copy : bool) (w : World) :
  fits_buffer A -> fits_buffer B -> fits_buffer C ->
  changeButtonState (globals w) = false ->
  let T := slideshowRefreshTime in
  let tA := clock orc (clock_calls w) in
  exists (fuel0 : nat) (tB tC tR : Z),
    (T <= tB - tA < T + slack /\
     2 * T <= tC - tA < 2 * T + 3 * slack /\
     3 * T <= tR - tA < 3 * T + 5 * slack) /\
    forall fuel : nat, (fuel0 <= fuel)%nat ->
      let r := displayAllImagesDir orc fuel [A; B; C] root copy w in
      fst r = Finished /\
      shown (out (snd r)) =
        (shown (out w) ++
         [(tA, (root ++ A)%string); (tB, (root ++ B)%string);
          (tC, (root ++ C)%string)])%list /\
      now_ms (snd r) = tR.
Proof.
  intros HfitA HfitB HfitC Hflag T tA. subst T tA.
  assert (HT : 0 < slideshowRefreshTime) by reflexivity.
  set (n0 := clock_calls w) in *.
  set (wA := snd (displayImageTFT orc (root ++ A) (snd (millis orc w)))).
  assert (HshownA : shown (out wA)
                    = (shown (out w) ++ [(clock orc n0, (root ++ A)%string)])%list).
  { unfold wA. rewrite displayImageTFT_log, shown_app. reflexivity. }
  (* waiting for B *)
  destruct (runs n0) as [m1 Hm1].
  pose proof (steady n0) as Hs0. pose proof (steady (n0 + m1)) as Hs0'.
  destruct (show_waits root B [C] m1 HfitB (S n0) (clock orc n0) wA)
    as (j1 & w1 & HtB & Hflag1 & Hcalls1 & Hnow1 & Hshown1 & Hrun1);
    [exact Hflag|reflexivity|lia|cbn [Nat.add]; lia|].
  (* waiting for C *)
  destruct (runs (S (S n0 + j1))) as [m2 Hm2].
  pose proof (steady (S n0 + j1)) as Hs1.
  pose proof (steady (S (S n0 + j1))) as Hs1'.
  pose proof (steady (S (S n0 + j1) + m2)) as Hs1''.
  destruct (show_waits root C [] m2 HfitC (S (S (S n0 + j1)))
              (clock orc (S (S n0 + j1))) w1)
    as (j2 & w2 & HtC & Hflag2 & Hcalls2 & Hnow2 & Hshown2 & Hrun2);
    [exact Hflag1|exact Hcalls1|lia|cbn [Nat.add] in *; lia|].
  (* the last delay *)
  destruct (runs (S (S (S (S n0 + j1)) + j2))) as [m3 Hm3].
  pose proof (steady (S (S (S n0 + j1)) + j2)) as Hs2.
  pose proof (steady (S (S (S (S n0 + j1)) + j2))) as Hs2'.
  pose proof (steady (S (S (S (S n0 + j1)) + j2) + m3)) as Hs2''.
  destruct (final_delay_ends m3 (S (S (S (S (S n0 + j1)) + j2)))
              (clock orc (S (S (S (S n0 + j1)) + j2))) w2)
    as (j3 & HtR & Hrun3);
    [exact Hcalls2|lia|cbn [Nat.add] in *; lia|].
  exists (S j1 + (S j2 + S j3))%nat,
         (clock orc (S n0 + j1)),
         (clock orc (S (S (S n0 + j1)) + j2)),
         (clock orc (S (S (S (S (S n0 + j1)) + j2)) + j3)).
  split; [lia|].
  intros fuel Hfuel r. subst r.
  replace fuel
    with (S j1 + (S j2 + (S j3 + (fuel - (S j1 + (S j2 + S j3))))))%nat by lia.
  set (f := (fuel - (S j1 + (S j2 + S j3)))%nat).
  unfold displayAllImagesDir, bind. cbn [openNextFile fst snd].
  rewrite (getName_fits A HfitA).
  change (fst (millis orc w)) with (to_u32 (clock orc n0)). fold wA.
  rewrite Hrun1. cbn [openNextFile fst snd].
  rewrite Hrun2. cbn [openNextFile fst snd].
  rewrite show_rest_done.
  destruct (Hrun3 f) as (Hend & Hout & Hnow).
  split; [exact Hend|]. split; [|exact Hnow].
  rewrite Hout, Hshown2, Hshown1, HshownA, <- !app_assoc. reflexivity.
Qed.

End SlideshowTiming.

Lemma slideshow_timing_witness :
  let o := bench [] [] 1000 in
  let T := slideshowRefreshTime in
  let tA := clock o (clock_calls (start_world 0)) in
  exists (fuel0 : nat) (tB tC tR : Z),
    (T <= tB - tA < T + 1000 /\
     2 * T <= tC - tA < 2 * T + 3 * 1000 /\
     3 * T <= tR - tA < 3 * T + 5 * 1000) /\
    forall fuel : nat, (fuel0 <= fuel)%nat ->
      let r := displayAllImagesDir o fuel ["a.bmp"; "b.bmp"; "c.bmp"] "/"
                 false (start_world 0) in
      fst r = Finished /\
      shown (out (snd r)) =
        (shown (out (start_world 0)) ++
         [(tA, ("/" ++ "a.bmp")%string); (tB, ("/" ++ "b.bmp")%string);
          (tC, ("/" ++ "c.bmp")%string)])%list /\
      now_ms (snd r) = tR.
Proof.
  intros o.
  assert (Hquiet : forall n, irq o n = false)
    by (intros [|[|n]]; reflexivity).
  assert (Hsteady : forall n, clock o n <= clock o (S n) <= clock o n + 1000)
    by (intros n; cbn [clock o bench]; lia).
  assert (Hslack : 1000 < 4294967296 - slideshowRefreshTime) by reflexivity.
  assert (Hruns : forall n, exists m,
             clock o n + slideshowRefreshTime <= clock o (n + m)).
  { intros n. exists 4%nat. cbn [clock o bench].
    unfold slideshowRefreshTime. lia. }
  assert (Hfit : forall name, In name ["a.bmp"; "b.bmp"; "c.bmp"] ->
                        fits_buffer name).
  { intros name [<-|[<-|[<-|[]]]]; reflexivity. }
  exact (slideshow_timing o 1000 Hquiet Hsteady Hslack Hruns
           "a.bmp" "b.bmp" "c.bmp" "/" false (start_world 0)
           (Hfit _ (or_introl eq_refl))
           (Hfit _ (or_intror (or_introl eq_refl)))
           (Hfit _ (or_intror (or_intror (or_introl eq_refl))))
           eq_refl).
Defined.

(** Between two entries the flag does end the slideshow: a poll of
    [while(entry)] that reads it up returns at once. *)
Lemma show_rest_cancels (orc : Oracle) (f : nat) (root name : string)
    (dir : list string) (t : Z) (w : World) :
  fst (read_changeButtonState orc w) = true ->
  fst (show_rest orc (S f) root (Some name) dir t w) = Cancelled.
Proof.
  intros Hup. cbn [show_rest]. unfold bind. rewrite Hup. reflexivity.
Qed.

(** C4, the part the code misses: during the delay after the last image
    the flag is not polled.  On a directory with the single entry a.bmp,
    with the flag up from the start and the button held down, the
    slideshow does not return early: it reads the clock until 4000 ms
    have passed, never the flag, and ends as [Finished] with the flag
    still up. *)
Theorem last_delay_ignores_signal :
  let o := {| irq := fun _ => true; rand_raw := fun _ => 0;
              clock := fun n => 1000 * Z.of_nat n;
              reader_bmpDimensions := fun _ _ _ => (IMAGE_SUCCESS, 240, 320);
              reader_drawBMP := fun _ _ _ => IMAGE_SUCCESS |} in
  let w := {| globals := {| changeButtonState := true; currentState := 0;
                            prevStateChange := 0 |};
              flag_reads := 0; rand_calls := 0; clock_calls := 0;
              now_ms := 0; out := [] |} in
  let r := displayAllImagesDir o 10 ["a.bmp"] "/" false w in
  fst r = Finished /\
  flag_reads (snd r) = 0%nat /\
  now_ms (snd r) = 4000 /\
  shown (out (snd r)) = [(0, "/a.bmp")] /\
  changeButtonState (globals (snd r)) = true.
Proof. vm_compute. repeat split. Qed.

(** ** More on the mode state machine *)

(** X10: the debounce test is right across the wrap of the 32-bit clock.
    With the stored time [p] and the reading [now] taken as true times
    less than 2^32 ms apart, a raised flag is accepted exactly when
    [now - p >= 50], also when [millis()] has wrapped in between. *)
Theorem debounce_across_wrap (p now now' : Z) (g : Globals) :
  prevStateChange g = to_u32 p ->
  changeButtonState g = true ->
  0 <= now - p < 4294967296 ->
  debounce (to_u32 now) now' g =
    if 50 <=? now - p then change_state now' g else clear_flag g.
Proof.
  intros Hprev Hflag Hrange. unfold debounce, debounced.
  rewrite Hflag, Hprev, elapsed_exact by exact Hrange.
  cbn [andb]. rewrite Z.geb_leb. reflexivity.
Qed.

Lemma debounce_across_wrap_witness :
  let g := {| changeButtonState := true; currentState := 0;
              prevStateChange := to_u32 4294967286 |} in
  prevStateChange g = 4294967286 /\
  to_u32 4294967341 = 45 /\
  debounce (to_u32 4294967341) 45 g = change_state 45 g.
Proof.
  intros g. split; [reflexivity|]. split; [reflexivity|].
  exact (debounce_across_wrap 4294967286 4294967341 45 g
           eq_refl eq_refl ltac:(lia)).
Defined.

Lemma board_step_state_range (b : Board) (ev : Stimulus) :
  currentState (vars b) = 0 \/ currentState (vars b) = 1 ->
  currentState (vars (board_step b ev)) = 0 \/
  currentState (vars (board_step b ev)) = 1.
Proof.
  intros Hb. destruct ev as [t|now now']; cbn [board_step].
  - destruct (isr_attached b); exact Hb.
  - destruct (phase b); [exact Hb|]. cbn [vars]. unfold debounce.
    destruct (_ && _); cbn [change_state clear_flag currentState];
      [apply next_state_range|exact Hb].
Qed.

(** X11: [currentState] is 0 or 1 for ever.  From power-on, whatever
    presses and turns follow, the state variable holds 0 or 1, so the
    [default] branch of the [switch] in [loop] is never taken. *)
Theorem state_stays_in_range (boot_ms : Z) (sd_begin : bool)
    (evs : list Stimulus) :
  currentState (vars (board_run (power_on boot_ms sd_begin) evs)) = 0 \/
  currentState (vars (board_run (power_on boot_ms sd_begin) evs)) = 1.
Proof.
  assert (Hgen : forall b,
             currentState (vars b) = 0 \/ currentState (vars b) = 1 ->
             currentState (vars (board_run b evs)) = 0 \/
             currentState (vars (board_run b evs)) = 1).
  { unfold board_run. induction evs as [|ev evs IH]; intros b Hb; [exact Hb|].
    cbn [fold_left]. apply IH. apply board_step_state_range. exact Hb. }
  apply Hgen. destruct sd_begin; left; reflexivity.
Qed.

Lemma transitions_bound (evs : list Stimulus) :
  forall b,
    (transitions b evs
     <= presses evs + (if changeButtonState (vars b) then 1 else 0))%nat.
Proof.
  induction evs as [|ev evs IH]; intros b; [cbn; lia|].
  cbn [transitions]. specialize (IH (board_step b ev)).
  destruct ev as [t|now now']; cbn [presses board_step] in *.
  - destruct (isr_attached b); cbn [vars modeChangeInterupt currentState
      changeButtonState] in *; rewrite Z.eqb_refl;
      destruct (changeButtonState (vars b)); cbn iota in *; lia.
  - destruct (phase b).
    + rewrite Z.eqb_refl. destruct (changeButtonState (vars b)); lia.
    + cbn [vars] in *. rewrite debounce_clears in IH. cbn iota in IH.
      destruct (changeButtonState (vars b)) eqn:Hflag.
      * destruct (_ =? _); lia.
      * assert (E : debounce (to_u32 now) (to_u32 now') (vars b)
                    = clear_flag (vars b))
          by (unfold debounce; rewrite Hflag; reflexivity).
        rewrite E in *. cbn [clear_flag currentState] in *.
        rewrite Z.eqb_refl. lia.
Qed.

(** X12: every change of mode uses up a press.  In a run that starts with
    the flag down, the number of state transitions is at most the number
    of button presses: no turn of [loop] changes the mode by itself, and
    one press never changes it twice. *)
Theorem transitions_need_presses (b : Board) (evs : list Stimulus) :
  changeButtonState (vars b) = false ->
  (transitions b evs <= presses evs)%nat.
Proof.
  intros Hflag. pose proof (transitions_bound evs b) as H.
  rewrite Hflag in H. lia.
Qed.

Lemma transitions_need_presses_witness :
  let b := power_on 0 true in
  let evs := [Turn 60 60; Press 100; Press 101; Turn 110 110; Press 120;
              Turn 130 130; Turn 200 200] in
  transitions b evs = 1%nat /\ presses evs = 3%nat /\
  (transitions b evs <= presses evs)%nat.
Proof.
  intros b evs. split; [reflexivity|]. split; [reflexivity|].
  exact (transitions_need_presses b evs eq_refl).
Defined.

(** X13: two accepted presses bring the mode back.  On a looping board
    whose state is 0 or 1, a press accepted at one turn and a second
    press accepted at a later turn (at least 50 ms after the time stored
    at the first) leave [currentState] where it was. *)
Theorem two_changes_round_trip (b : Board) (t1 a a' t2 c c' : Z) :
  phase b = Looping -> isr_attached b = true ->
  currentState (vars b) = 0 \/ currentState (vars b) = 1 ->
  debounced (to_u32 a) (vars b) = true ->
  50 <= elapsed (to_u32 c) (to_u32 a') ->
  let evs := [Press t1; Turn a a'; Press t2; Turn c c'] in
  currentState (vars (board_run b evs)) = currentState (vars b) /\
  transitions b evs = 2%nat.
Proof.
  intros Hp Ha Hrange Hold Hnew evs. subst evs.
  unfold board_run. cbn [transitions fold_left board_step].
  rewrite Ha, Hp. cbn [phase isr_attached vars].
  assert (H1 : debounce (to_u32 a) (to_u32 a') (modeChangeInterupt (vars b))
               = change_state (to_u32 a') (vars b)).
  { unfold debounce, debounced in *. cbn [modeChangeInterupt changeButtonState
      prevStateChange andb]. rewrite Hold. reflexivity. }
  rewrite H1.
  assert (H2 : debounce (to_u32 c) (to_u32 c')
                 (modeChangeInterupt (change_state (to_u32 a') (vars b)))
               = change_state (to_u32 c') (change_state (to_u32 a') (vars b))).
  { unfold debounce, debounced. cbn [modeChangeInterupt change_state
      changeButtonState prevStateChange currentState andb].
    destruct (elapsed (to_u32 c) (to_u32 a') >=? 50) eqn:E; [reflexivity|].
    rewrite Z.geb_leb, Z.leb_gt in E. lia. }
  rewrite H2.
  cbn [modeChangeInterupt change_state currentState].
  rewrite !Z.eqb_refl.
  destruct Hrange as [-> | ->]; split; reflexivity.
Qed.

Lemma two_changes_round_trip_witness :
  let b := power_on 0 true in
  let evs := [Press 100; Turn 100 100; Press 120; Turn 400 400] in
  50 <= elapsed (to_u32 400) (to_u32 100) /\
  currentState (vars (board_run b evs)) = currentState (vars b).
Proof.
  intros b evs.
  assert (Hnew : 50 <= elapsed (to_u32 400) (to_u32 100))
    by (vm_compute; discriminate).
  split; [exact Hnew|].
  exact (proj1 (two_changes_round_trip b 100 100 100 120 400 400
                  eq_refl eq_refl (or_introl eq_refl) eq_refl Hnew)).
Defined.

(** ** What the animator sends out *)

Lemma to_i16_small (v : Z) : -32768 <= v < 32768 -> to_i16 v = v.
Proof. intros H. unfold to_i16. rewrite Z.mod_small by lia. lia. Qed.

Lemma in_field_i16 (x y : Z) :
  in_field x y -> to_i16 x = x /\ to_i16 y = y.
Proof.
  unfold in_field, screenWidth, screenLength, spriteSize. intros [Hx Hy].
  split; apply to_i16_small; lia.
Qed.

Lemma serial_ret {A} (a : A) : serial_only (ret a).
Proof.
  intros w. split; [reflexivity|]. split; [reflexivity|].
  exists []. split; [symmetry; apply app_nil_r|reflexivity].
Qed.

Lemma serial_bind {A B} (m : M A) (k : A -> M B) :
  serial_only m -> (forall a, serial_only (k a)) -> serial_only (bind m k).
Proof.
  intros Hm Hk w. unfold bind.
  destruct (Hm w) as (Hn1 & Hc1 & l1 & Ho1 & Hs1).
  destruct (Hk (fst (m w)) (snd (m w))) as (Hn2 & Hc2 & l2 & Ho2 & Hs2).
  split; [congruence|]. split; [congruence|].
  exists (l1 ++ l2)%list. split.
  - rewrite Ho2, Ho1, app_assoc. reflexivity.
  - rewrite shown_app, Hs1, Hs2. reflexivity.
Qed.

Lemma serial_read (orc : Oracle) : serial_only (read_changeButtonState orc).
Proof.
  intros w. split; [reflexivity|]. split; [reflexivity|].
  exists []. split; [symmetry; apply app_nil_r|reflexivity].
Qed.

Lemma serial_random (orc : Oracle) (howbig : Z) :
  serial_only (random orc howbig).
Proof.
  intros w. split; [reflexivity|]. split; [reflexivity|].
  exists []. split; [symmetry; apply app_nil_r|reflexivity].
Qed.

Lemma serial_println (s : string) : serial_only (emit (SerialPrintln s)).
Proof.
  intros w. split; [reflexivity|]. split; [reflexivity|].
  exists [SerialPrintln s]. split; reflexivity.
Qed.

Lemma serial_for_slots (orc : Oracle) (slots : list nat) (sp : Sprites) :
  forall c, serial_only (for_slots orc slots sp c).
Proof.
  induction slots as [|i rest IH]; intros c; cbn [for_slots].
  - apply serial_ret.
  - apply serial_bind; [|exact IH]. unfold check_slot.
    destruct (onScreen_at sp i); [|apply serial_ret].
    destruct (x_collides _ _); [|apply serial_ret].
    destruct (y_collides _ _); [|apply serial_ret].
    apply serial_bind; [apply serial_println|intros _].
    apply serial_bind; [apply serial_random|intros x].
    apply serial_bind; [apply serial_random|intros y].
    apply serial_ret.
Qed.

(** The search draws nothing and reads no clock. *)
Lemma serial_find_free (orc : Oracle) (fuel : nat) (sp : Sprites) :
  forall c, serial_only (find_free orc fuel sp c).
Proof.
  induction fuel as [|fuel IH]; intros c; cbn [find_free].
  - apply serial_ret.
  - apply serial_bind; [apply serial_read|intros raised].
    destruct raised; [apply serial_ret|].
    apply serial_bind; [apply serial_for_slots|intros c'].
    destruct (collision c'); [apply IH|apply serial_ret].
Qed.

(** What a pass adds to the log: the blank at the stored position of the
    erased slot, or the heart at the accepted position after the lines of
    the search, or the lines of the search alone. *)
Lemma sprite_tick_log (orc : Oracle) (fuel : nat) (sp : Sprites) (w : World) :
  let k := Z.to_nat (to_u16 (fst (random orc maxSprites w))) in
  let r := sprite_tick orc fuel sp w in
  now_ms (snd r) = now_ms w /\
  clock_calls (snd r) = clock_calls w /\
  exists l, shown l = [] /\
    match fst (fst r) with
    | Erased _ =>
        out (snd r) =
          (out w ++
           [DrawBMP (now_ms w) "/pattern/clear-32.bmp"
              (to_i16 (posX_at sp k)) (to_i16 (posY_at sp k));
            PrintStatus
              (reader_drawBMP orc "/pattern/clear-32.bmp"
                 (to_i16 (posX_at sp k)) (to_i16 (posY_at sp k)))])%list
    | Placed _ x y =>
        out (snd r) =
          (out w ++ l ++
           [DrawBMP (now_ms w) "/pattern/heart.bmp" (to_i16 x) (to_i16 y);
            PrintStatus
              (reader_drawBMP orc "/pattern/heart.bmp"
                 (to_i16 x) (to_i16 y))])%list
    | Aborted _ | Unfinished _ => out (snd r) = (out w ++ l)%list
    end.
Proof.
  intros k r. subst r. unfold sprite_tick, bind. fold k.
  destruct (onScreen_at sp k).
  - split; [reflexivity|]. split; [reflexivity|].
    exists []. split; [reflexivity|].
    unfold displayImageTFT_at, drawBMP, printStatus, emit, bind, ret, random.
    cbn [fst snd out now_ms]. rewrite <- app_assoc. reflexivity.
  - match goal with
    | |- context [find_free orc fuel sp ?c ?w1] =>
        destruct (serial_find_free orc fuel sp c w1) as (Hn & Hc & l & Ho & Hs);
        change (now_ms w1) with (now_ms w) in Hn;
        change (clock_calls w1) with (clock_calls w) in Hc;
        change (out w1) with (out w) in Ho;
        destruct (fst (find_free orc fuel sp c w1)) as [x y| |];
        set (wf := snd (find_free orc fuel sp c w1)) in *
    end.
    + split; [exact Hn|]. split; [exact Hc|].
      exists l. split; [exact Hs|].
      unfold displayImageTFT_at, drawBMP, printStatus, emit, bind, ret.
      cbn [fst snd out now_ms]. rewrite Ho, Hn, <- !app_assoc. reflexivity.
    + split; [exact Hn|]. split; [exact Hc|]. exists l. split; assumption.
    + split; [exact Hn|]. split; [exact Hc|]. exists l. split; assumption.
Qed.

Lemma lookup_posX (sp : Sprites) (k : nat) :
  sprites_wf sp -> (k < Z.to_nat maxSprites)%nat ->
  posXArr sp !! k = Some (posX_at sp k).
Proof.
  intros (Hx & _ & _) Hk. unfold posX_at.
  destruct (lookup_lt_is_Some_2 (posXArr sp) k) as [v Hv]; [lia|].
  rewrite Hv. reflexivity.
Qed.

Lemma lookup_posY (sp : Sprites) (k : nat) :
  sprites_wf sp -> (k < Z.to_nat maxSprites)%nat ->
  posYArr sp !! k = Some (posY_at sp k).
Proof.
  intros (_ & Hy & _) Hk. unfold posY_at.
  destruct (lookup_lt_is_Some_2 (posYArr sp) k) as [v Hv]; [lia|].
  rewrite Hv. reflexivity.
Qed.

(** X7: a sprite is erased where it was drawn.  When a pass places slot
    [k] at [(x, y)] and the next pass picks the same slot and erases it,
    that pass adds to the log exactly one draw, of the blank bitmap at
    [(x, y)], and its status line. *)
Theorem erase_where_placed (orc : Oracle) (fuel : nat) (sp : Sprites)
    (w : World) (k : nat) (x y : Z) :
  sprites_wf sp ->
  let t1 := sprite_tick orc fuel sp w in
  let t2 := sprite_tick orc fuel (snd (fst t1)) (snd t1) in
  fst (fst t1) = Placed k x y ->
  fst (fst t2) = Erased k ->
  out (snd t2) =
    (out (snd t1) ++
     [DrawBMP (now_ms (snd t1)) "/pattern/clear-32.bmp" x y;
      PrintStatus (reader_drawBMP orc "/pattern/clear-32.bmp" x y)])%list.
Proof.
  intros Hwf t1 t2 H1 H2.
  destruct (sprite_tick_cases orc fuel sp w) as [Hk1 Hc1]. cbn zeta in Hc1.
  fold t1 in Hc1.
  destruct Hc1 as [[_ Hr]|[(_ & x' & y' & Hr & Hxy & _)|[[_ Hr]|[_ Hr]]]];
    rewrite Hr in H1; cbn [fst] in H1; try discriminate.
  injection H1 as Hk <- <-.
  assert (Hsp1 : snd (fst t1) = place sp k x' y')
    by (rewrite Hr, <- Hk; reflexivity).
  destruct (sprite_tick_cases orc fuel (snd (fst t1)) (snd t1)) as [Hk2 Hc2].
  destruct (sprite_tick_log orc fuel (snd (fst t1)) (snd t1))
    as (_ & _ & l & _ & Hlog).
  cbn zeta in Hc2, Hlog. fold t2 in Hc2, Hlog.
  set (k2 := Z.to_nat (to_u16 (fst (random orc maxSprites (snd t1))))) in *.
  assert (Hk2' : k2 = k).
  { destruct Hc2 as [[_ Hr2]|[(_ & ? & ? & Hr2 & _)|[[_ Hr2]|[_ Hr2]]]];
      rewrite Hr2 in H2; cbn [fst] in H2; try discriminate.
    injection H2 as ->. reflexivity. }
  rewrite H2, Hk2' in Hlog. rewrite Hlog.
  assert (Hkk : (k < Z.to_nat maxSprites)%nat) by (rewrite <- Hk2'; exact Hk2).
  destruct Hwf as (Hlx & Hly & Hlv).
  assert (Hx : posX_at (snd (fst t1)) k = x').
  { rewrite Hsp1. unfold posX_at, place. cbn [posXArr].
    rewrite list_lookup_insert_eq by lia. reflexivity. }
  assert (Hy : posY_at (snd (fst t1)) k = y').
  { rewrite Hsp1. unfold posY_at, place. cbn [posYArr].
    rewrite list_lookup_insert_eq by lia. reflexivity. }
  destruct (in_field_i16 x' y' Hxy) as [Hx16 Hy16].
  rewrite Hx, Hy, Hx16, Hy16. reflexivity.
Qed.

Lemma erase_where_placed_witness :
  let o := bench [3; 10; 20; 3] [] 1 in
  let t1 := sprite_tick o 5 no_sprites (start_world 0) in
  let t2 := sprite_tick o 5 (snd (fst t1)) (snd t1) in
  fst (fst t1) = Placed 3 10 20 /\ fst (fst t2) = Erased 3 /\
  out (snd t2) =
    (out (snd t1) ++
     [DrawBMP 0 "/pattern/clear-32.bmp" 10 20; PrintStatus IMAGE_SUCCESS])%list.
Proof.
  intros o t1 t2.
  assert (Hwf : sprites_wf no_sprites) by (repeat split).
  assert (H1 : fst (fst t1) = Placed 3 10 20) by (vm_compute; reflexivity).
  assert (H2 : fst (fst t2) = Erased 3) by (vm_compute; reflexivity).
  split; [exact H1|]. split; [exact H2|].
  exact (erase_where_placed o 5 no_sprites (start_world 0) 3 10 20 Hwf H1 H2).
Defined.

Lemma shown_nil_in_field (l : list Output) :
  shown l = [] -> Forall sprite_draw_in_field l.
Proof.
  induction l as [|o l IH]; intros Hs; [constructor|].
  destruct o; cbn [shown] in Hs; try discriminate;
    (constructor; [exact I|exact (IH Hs)]).
Qed.

(** The draws of one pass are inside the field. *)
Lemma sprite_tick_in_field (orc : Oracle) (fuel : nat) (sp : Sprites)
    (w : World) :
  animator_inv sp ->
  exists l,
    out (snd (sprite_tick orc fuel sp w)) = (out w ++ l)%list /\
    Forall sprite_draw_in_field l.
Proof.
  intros (Hwf & _ & Hin).
  destruct (sprite_tick_cases orc fuel sp w) as [Hk Hcases].
  destruct (sprite_tick_log orc fuel sp w) as (_ & _ & l & Hs & Hlog).
  cbn zeta in Hcases, Hlog.
  set (k := Z.to_nat (to_u16 (fst (random orc maxSprites w)))) in *.
  pose proof (shown_nil_in_field l Hs) as Hl.
  destruct Hcases as [[Hv Hr]|[(_ & x & y & Hr & Hxy & _)|[[_ Hr]|[_ Hr]]]];
    rewrite Hr in Hlog; cbn [fst] in Hlog.
  - eexists. split; [exact Hlog|].
    assert (Hxy : in_field (posX_at sp k) (posY_at sp k)).
    { apply (Hin k).
      - rewrite lookup_onScreen, Hv by assumption. reflexivity.
      - apply lookup_posX; assumption.
      - apply lookup_posY; assumption. }
    destruct (in_field_i16 _ _ Hxy) as [-> ->].
    constructor; [intros _; exact Hxy|]. constructor; [exact I|constructor].
  - eexists. split; [exact Hlog|].
    destruct (in_field_i16 _ _ Hxy) as [-> ->].
    apply Forall_app. split; [exact Hl|].
    constructor; [intros _; exact Hxy|]. constructor; [exact I|constructor].
  - exists l. split; assumption.
  - exists l. split; assumption.
Qed.

Lemma pattern_loop_in_field (orc : Oracle) (fuel n : nat) :
  forall (sp : Sprites) (time1 : Z) (w : World),
    animator_inv sp ->
    exists l,
      out (snd (pattern_loop orc n fuel sp time1 w)) = (out w ++ l)%list /\
      Forall sprite_draw_in_field l.
Proof.
  induction n as [|n IH]; intros sp time1 w Hinv.
  - exists []. split; [symmetry; apply app_nil_r|constructor].
  - cbn [pattern_loop]. unfold bind, yield, ret. cbn [fst snd].
    destruct (fst (read_changeButtonState orc w)).
    { exists []. split; [symmetry; apply app_nil_r|constructor]. }
    match goal with |- context [if ?b then _ else _] => destruct b end.
    + match goal with
      | |- context [sprite_tick orc fuel sp ?w1] =>
          destruct (sprite_tick_in_field orc fuel sp w1 Hinv) as (l1 & Ho1 & Hl1);
          pose proof (sprite_tick_inv orc fuel sp w1 Hinv) as Hnext;
          change (out w1) with (out w) in Ho1;
          set (t := sprite_tick orc fuel sp w1) in *
      end.
      destruct (fst (fst t)); cbn [fst snd];
        try (exists l1; split; assumption).
      * match goal with
        | |- context [pattern_loop orc n fuel ?s ?t1 ?w2] =>
            destruct (IH s t1 w2 Hnext) as (l2 & Ho2 & Hl2);
            change (out w2) with (out (snd t)) in Ho2
        end.
        exists (l1 ++ l2)%list. split.
        -- rewrite Ho2, Ho1, app_assoc. reflexivity.
        -- apply Forall_app. split; assumption.
      * match goal with
        | |- context [pattern_loop orc n fuel ?s ?t1 ?w2] =>
            destruct (IH s t1 w2 Hnext) as (l2 & Ho2 & Hl2);
            change (out w2) with (out (snd t)) in Ho2
        end.
        exists (l1 ++ l2)%list. split.
        -- rewrite Ho2, Ho1, app_assoc. reflexivity.
        -- apply Forall_app. split; assumption.
    + match goal with
      | |- context [pattern_loop orc n fuel sp time1 ?w2] =>
          destruct (IH sp time1 w2 Hinv) as (l2 & Ho2 & Hl2);
          change (out w2) with (out w) in Ho2
      end.
      exists l2. split; assumption.
Qed.

(** X8: every sprite is drawn inside the field.  Whatever a run of
    [patternMode] adds to the log, each draw of the heart or of the blank
    in it has 0 <= x < 208 and 0 <= y < 188; the log itself only grows. *)
Theorem sprites_drawn_in_field (orc : Oracle) (n fuel : nat) (w : World) :
  exists l,
    out (snd (patternMode orc n fuel w)) = (out w ++ l)%list /\
    Forall sprite_draw_in_field l.
Proof.
  unfold patternMode, bind.
  match goal with
  | |- context [pattern_loop orc n fuel no_sprites ?t1 ?w1] =>
      destruct (pattern_loop_in_field orc fuel n no_sprites t1 w1 no_sprites_inv)
        as (l & Ho & Hl);
      set (r := pattern_loop orc n fuel no_sprites t1 w1) in *
  end.
  eexists. split.
  - rewrite Ho.
    unfold displayImageTFT_at, drawBMP, printStatus, emit, millis, bind.
    cbn [fst snd out]. rewrite <- !app_assoc. cbn [app]. reflexivity.
  - constructor; [exact I|].
    constructor; [intros [H|H]; discriminate H|].
    constructor; [exact I|exact Hl].
Qed.

(** ** The pace of the animation *)

Lemma spaced_cons (gap a : Z) (ts : list Z) :
  Forall (fun t => a + gap <= t) ts -> spaced gap ts -> spaced gap (a :: ts).
Proof.
  intros Hall Hts. destruct ts as [|b ts]; [exact I|].
  split; [exact (Forall_inv Hall)|exact Hts].
Qed.

(** A difference of true times that does not go back is at least what
    the 32-bit subtraction says. *)
Lemma elapsed_lower (a b : Z) :
  0 <= a - b -> elapsed (to_u32 a) (to_u32 b) <= a - b.
Proof.
  intros H. unfold elapsed, to_u32. rewrite <- Zminus_mod.
  apply Z.mod_le; lia.
Qed.

(** The bitmaps one pass draws: none, or one stamped with the latest
    clock reading. *)
Lemma sprite_tick_stamps (orc : Oracle) (fuel : nat) (sp : Sprites)
    (w : World) :
  let r := sprite_tick orc fuel sp w in
  now_ms (snd r) = now_ms w /\
  clock_calls (snd r) = clock_calls w /\
  exists l,
    out (snd r) = (out w ++ l)%list /\
    (map fst (shown l) = [] \/ map fst (shown l) = [now_ms w]).
Proof.
  destruct (sprite_tick_log orc fuel sp w) as (Hn & Hc & l & Hs & Hlog).
  cbn zeta in *. split; [exact Hn|]. split; [exact Hc|].
  destruct (fst (fst (sprite_tick orc fuel sp w))).
  - eexists. split; [exact Hlog|]. right. reflexivity.
  - eexists. split; [exact Hlog|]. right.
    rewrite shown_app, Hs. reflexivity.
  - exists l. split; [exact Hlog|]. left. rewrite Hs. reflexivity.
  - exists l. split; [exact Hlog|]. left. rewrite Hs. reflexivity.
Qed.

Section Cadence.

Variable orc : Oracle.

(** The clock never goes back. *)
Hypothesis forward : forall n, clock orc n <= clock orc (S n).

Lemma pattern_loop_cadence (fuel n : nat) :
  forall (sp : Sprites) (tau : Z) (w : World),
    tau <= clock orc (clock_calls w) ->
    exists l,
      out (snd (pattern_loop orc n fuel sp (to_u32 tau) w)) = (out w ++ l)%list /\
      spaced refreshTime (map fst (shown l)) /\
      Forall (fun t => tau + refreshTime <= t) (map fst (shown l)).
Proof.
  induction n as [|n IH]; intros sp tau w Htau.
  - exists []. split; [symmetry; apply app_nil_r|]. split; constructor.
  - cbn [pattern_loop]. unfold bind, yield, ret. cbn [fst snd].
    destruct (fst (read_changeButtonState orc w)).
    { exists []. split; [symmetry; apply app_nil_r|]. split; constructor. }
    set (w1 := snd (read_changeButtonState orc w)).
    change (fst (millis orc w1)) with (to_u32 (clock orc (clock_calls w))).
    set (c := clock orc (clock_calls w)) in *.
    pose proof (forward (clock_calls w)) as Hf1.
    pose proof (forward (S (clock_calls w))) as Hf2.
    fold c in Hf1.
    destruct (elapsed (to_u32 c) (to_u32 tau) >=? refreshTime) eqn:Hgate.
    + rewrite Z.geb_leb, Z.leb_le in Hgate.
      pose proof (elapsed_lower c tau ltac:(lia)) as Hlow.
      destruct (sprite_tick_stamps orc fuel sp (snd (millis orc w1)))
        as (Hn & Hc & l1 & Ho1 & Hs1).
      cbn zeta in Hn, Hc, Ho1.
      change (out (snd (millis orc w1))) with (out w) in Ho1.
      change (now_ms (snd (millis orc w1))) with c in Hn, Hs1.
      change (clock_calls (snd (millis orc w1))) with (S (clock_calls w)) in Hc.
      set (t := sprite_tick orc fuel sp (snd (millis orc w1))) in *.
      assert (Hone : spaced refreshTime (map fst (shown l1)) /\
                     Forall (fun t => tau + refreshTime <= t)
                       (map fst (shown l1))).
      { destruct Hs1 as [-> | ->]; split; try constructor; [lia|constructor]. }
      assert (Hcont : forall sp',
        exists l,
          out (snd (pattern_loop orc n fuel sp'
                      (fst (millis orc (snd t))) (snd (millis orc (snd t)))))
            = (out w ++ l)%list /\
          spaced refreshTime (map fst (shown l)) /\
          Forall (fun t => tau + refreshTime <= t) (map fst (shown l))).
      { intros sp'.
        change (fst (millis orc (snd t)))
          with (to_u32 (clock orc (clock_calls (snd t)))).
        rewrite Hc.
        destruct (IH sp' (clock orc (S (clock_calls w))) (snd (millis orc (snd t))))
          as (l2 & Ho2 & Hsp2 & Hall2).
        { cbn [millis snd clock_calls]. rewrite Hc. exact Hf2. }
        change (out (snd (millis orc (snd t)))) with (out (snd t)) in Ho2.
        exists (l1 ++ l2)%list. split; [rewrite Ho2, Ho1, app_assoc; reflexivity|].
        rewrite shown_app, map_app.
        assert (Hall2' : Forall (fun t => c + refreshTime <= t)
                           (map fst (shown l2))).
        { eapply Forall_impl; [exact Hall2|]. cbn beta. intros a Ha. lia. }
        destruct Hs1 as [-> | ->]; cbn [app].
        - split; [exact Hsp2|].
          eapply Forall_impl; [exact Hall2'|]. cbn beta. intros a Ha. lia.
        - split; [apply spaced_cons; assumption|].
          constructor; [lia|].
          eapply Forall_impl; [exact Hall2'|]. cbn beta. intros a Ha. lia. }
      destruct (fst (fst t)); cbn [fst snd];
        try (exists l1; split; [exact Ho1|exact Hone]); apply Hcont.
    + destruct (IH sp tau (snd (millis orc w1))) as (l2 & Ho2 & Hrest).
      { change (clock_calls (snd (millis orc w1))) with (S (clock_calls w)).
        lia. }
      exists l2. split; [exact Ho2|exact Hrest].
Qed.

(** X14: the animation changes at most one sprite per half second.  With
    a clock that never goes back, after the background and the message
    the run of [patternMode] draws its sprites at clock readings in
    ascending order, each at least [refreshTime] = 500 ms after the one
    before, and the first at least 500 ms after the start. *)
Theorem sprite_cadence (n fuel : nat) (w : World) :
  exists l,
    out (snd (patternMode orc n fuel w)) =
      (out w ++
       [FillScreen BLACK;
        DrawBMP (now_ms w) "/pattern/bottom-message.bmp" (-5) 220;
        PrintStatus (reader_drawBMP orc "/pattern/bottom-message.bmp" (-5) 220)]
       ++ l)%list /\
    spaced refreshTime (map fst (shown l)) /\
    Forall (fun t => clock orc (clock_calls w) + refreshTime <= t)
      (map fst (shown l)).
Proof.
  unfold patternMode, bind.
  match goal with
  | |- context [pattern_loop orc n fuel no_sprites ?t1 ?w1] =>
      change t1 with (to_u32 (clock orc (clock_calls w)));
      destruct (pattern_loop_cadence fuel n no_sprites
                  (clock orc (clock_calls w)) w1) as (l & Ho & Hrest);
      [exact (forward (clock_calls w))|];
      set (r := pattern_loop orc n fuel no_sprites
                  (to_u32 (clock orc (clock_calls w))) w1) in *
  end.
  exists l. split; [|exact Hrest].
  rewrite Ho.
  unfold displayImageTFT_at, drawBMP, printStatus, emit, millis, bind.
  cbn [fst snd out now_ms]. rewrite <- !app_assoc. reflexivity.
Qed.

End Cadence.

Lemma sprite_cadence_witness :
  let o := bench [3; 10; 20; 5; 15; 25; 100; 100; 3; 7] [] 300 in
  let r := patternMode o 12 5 (start_world 0) in
  shown (out (snd r)) =
    [(0, "/pattern/bottom-message.bmp"); (600, "/pattern/heart.bmp");
     (1500, "/pattern/heart.bmp"); (2400, "/pattern/clear-32.bmp");
     (3300, "/pattern/heart.bmp")] /\
  exists l,
    out (snd r) =
      (out (start_world 0) ++
       [FillScreen BLACK;
        DrawBMP 0 "/pattern/bottom-message.bmp" (-5) 220;
        PrintStatus (reader_drawBMP o "/pattern/bottom-message.bmp" (-5) 220)]
       ++ l)%list /\
    spaced refreshTime (map fst (shown l)) /\
    Forall (fun t => clock o (clock_calls (start_world 0)) + refreshTime <= t)
      (map fst (shown l)).
Proof.
  intros o r. split; [vm_compute; reflexivity|].
  assert (Hforward : forall n, clock o n <= clock o (S n))
    by (intros n; cbn [clock o bench]; lia).
  exact (sprite_cadence o Hforward 12 5 (start_world 0)).
Defined.

(** ** Leaving the pattern mode *)

Lemma find_free_interrupted (orc : Oracle) (fuel : nat) (sp : Sprites) :
  forall (c : Candidate) (w : World),
    fst (find_free orc fuel sp c w) = Interrupted ->
    changeButtonState (globals (snd (find_free orc fuel sp c w))) = true.
Proof.
  induction fuel as [|fuel IH]; intros c w; [discriminate|].
  cbn [find_free]. unfold bind, ret.
  destruct (fst (read_changeButtonState orc w)) eqn:Hread; cbn [fst snd].
  - intros _. exact Hread.
  - destruct (collision _); [apply IH|discriminate].
Qed.

Lemma sprite_tick_aborted (orc : Oracle) (fuel : nat) (sp : Sprites)
    (w : World) (k : nat) :
  fst (fst (sprite_tick orc fuel sp w)) = Aborted k ->
  changeButtonState (globals (snd (sprite_tick orc fuel sp w))) = true.
Proof.
  unfold sprite_tick, bind. destruct (onScreen_at sp _); [discriminate|].
  match goal with
  | |- context [find_free orc fuel sp ?c ?w1] =>
      pose proof (find_free_interrupted orc fuel sp c w1) as Hint;
      destruct (fst (find_free orc fuel sp c w1))
  end; cbn [fst snd]; try discriminate.
  intros _. apply Hint. reflexivity.
Qed.

Lemma pattern_loop_exit (orc : Oracle) (fuel n : nat) :
  forall (sp : Sprites) (time1 : Z) (w : World),
    let r := pattern_loop orc n fuel sp time1 w in
    fst (fst r) <> Finished /\
    (fst (fst r) = Cancelled -> changeButtonState (globals (snd r)) = true).
Proof.
  induction n as [|n IH]; intros sp time1 w; cbn zeta.
  - split; discriminate.
  - cbn [pattern_loop]. unfold bind, yield, ret. cbn [fst snd].
    destruct (fst (read_changeButtonState orc w)) eqn:Hread.
    { split; [discriminate|]. intros _. exact Hread. }
    match goal with |- context [if ?b then _ else _] => destruct b end;
      [|apply IH].
    match goal with
    | |- context [sprite_tick orc fuel sp ?w1] =>
        pose proof (sprite_tick_aborted orc fuel sp w1) as Hab;
        destruct (fst (fst (sprite_tick orc fuel sp w1))) as [k|k x y|k|k]
    end; cbn [fst snd]; try apply IH.
    + split; [discriminate|]. intros _. exact (Hab k eq_refl).
    + split; discriminate.
Qed.

(** X3: the pattern mode returns only on the flag.  A run of
    [patternMode] never comes to an end of its own, and when it returns
    the flag [changeButtonState] is set, so the next turn of [loop]
    finds it. *)
Theorem patternMode_returns_on_flag (orc : Oracle) (n fuel : nat) (w : World) :
  let r := patternMode orc n fuel w in
  fst (fst r) <> Finished /\
  (fst (fst r) = Cancelled -> changeButtonState (globals (snd r)) = true).
Proof. unfold patternMode, bind. apply pattern_loop_exit. Qed.

Lemma patternMode_returns_on_flag_witness :
  let o := bench [3; 10; 20; 5; 15; 25; 100; 100; 3; 7]
             [false; false; false; false; false; false; false; true] 300 in
  let r := patternMode o 20 5 (start_world 0) in
  fst (fst r) = Cancelled /\ changeButtonState (globals (snd r)) = true.
Proof.
  intros o r.
  assert (Hc : fst (fst r) = Cancelled) by (vm_compute; reflexivity).
  split; [exact Hc|].
  exact (proj2 (patternMode_returns_on_flag o 20 5 (start_world 0)) Hc).
Defined.

Section LeftAlone.

Variable orc : Oracle.

(** Nobody touches the button. *)
Hypothesis untouched : forall n, irq orc n = false.

Lemma find_free_untouched (fuel : nat) (sp : Sprites) :
  forall (c : Candidate) (w : World),
    changeButtonState (globals w) = false ->
    fst (find_free orc fuel sp c w) <> Interrupted /\
    globals (snd (find_free orc fuel sp c w)) = globals w.
Proof.
  induction fuel as [|fuel IH]; intros c w Hflag.
  - split; [discriminate|reflexivity].
  - cbn [find_free]. unfold bind, ret.
    destruct (quiet_read orc untouched w Hflag) as [Hread Hg].
    rewrite Hread.
    set (w1 := snd (read_changeButtonState orc w)) in *.
    match goal with
    | |- context [for_slots orc all_slots sp ?c0 w1] =>
        destruct (for_slots_frame orc sp all_slots c0 w1) as [Hg2 _];
        set (s := for_slots orc all_slots sp c0 w1) in *
    end.
    destruct (collision (fst s)).
    + destruct (IH (fst s) (snd s)) as [Hne Hg3]; [congruence|].
      split; [exact Hne|congruence].
    + cbn [fst snd]. split; [discriminate|congruence].
Qed.

Lemma sprite_tick_untouched (fuel : nat) (sp : Sprites) (w : World) :
  changeButtonState (globals w) = false ->
  (forall k, fst (fst (sprite_tick orc fuel sp w)) <> Aborted k) /\
  globals (snd (sprite_tick orc fuel sp w)) = globals w.
Proof.
  intros Hflag. unfold sprite_tick, bind.
  destruct (onScreen_at sp _); [split; [discriminate|reflexivity]|].
  match goal with
  | |- context [find_free orc fuel sp ?c ?w1] =>
      destruct (find_free_untouched fuel sp c w1 Hflag) as [Hne Hg];
      change (globals w1) with (globals w) in Hg;
      destruct (fst (find_free orc fuel sp c w1))
  end; cbn [fst snd].
  - split; [discriminate|exact Hg].
  - destruct (Hne eq_refl).
  - split; [discriminate|exact Hg].
Qed.

(** X5: left alone, the pattern mode goes on for ever.  With the flag
    down at the start and no interrupt, [patternMode] is still running
    after any number of iterations of its loop: nothing but the button
    ends it. *)
Theorem patternMode_runs_on (n fuel : nat) (w : World) :
  changeButtonState (globals w) = false ->
  fst (fst (patternMode orc n fuel w)) = Running.
Proof.
  intros Hflag.
  assert (Hloop : forall sp time1 w',
             changeButtonState (globals w') = false ->
             fst (fst (pattern_loop orc n fuel sp time1 w')) = Running).
  { clear w Hflag. induction n as [|n IH]; intros sp time1 w Hflag;
      [reflexivity|].
    cbn [pattern_loop]. unfold bind, yield, ret. cbn [fst snd].
    destruct (quiet_read orc untouched w Hflag) as [Hread Hg].
    rewrite Hread.
    set (w1 := snd (read_changeButtonState orc w)) in *.
    assert (Hflag1 : changeButtonState (globals (snd (millis orc w1))) = false)
      by (cbn [millis snd globals]; rewrite Hg; exact Hflag).
    match goal with |- context [if ?b then _ else _] => destruct b end;
      [|apply IH; exact Hflag1].
    destruct (sprite_tick_untouched fuel sp (snd (millis orc w1)) Hflag1)
      as [Hne Hg2].
    set (t := sprite_tick orc fuel sp (snd (millis orc w1))) in *.
    destruct (fst (fst t)) as [k|k x y|k|k]; cbn [fst snd];
      try reflexivity; try (destruct (Hne k eq_refl));
      apply IH; cbn [millis snd globals]; rewrite Hg2; exact Hflag1. }
  unfold patternMode, bind. apply Hloop. exact Hflag.
Qed.

End LeftAlone.

Lemma patternMode_runs_on_witness :
  let o := bench [3; 10; 20; 5; 15; 25; 100; 100; 3; 7] [] 300 in
  fst (fst (patternMode o 40 5 (start_world 0))) = Running.
Proof.
  intros o.
  assert (Hun : forall n, irq o n = false) by (intros [|[|n]]; reflexivity).
  exact (patternMode_runs_on o Hun 40 5 (start_world 0) eq_refl).
Defined.

(** ** A free position is taken at once *)

Lemma for_slots_clear (orc : Oracle) (sp : Sprites) (slots : list nat)
    (c : Candidate) (w : World) :
  (forall i, In i slots -> clear_of sp (xPos c) (yPos c) i) ->
  for_slots orc slots sp c w = (c, w).
Proof.
  induction slots as [|i rest IH]; intros Hclear; [reflexivity|].
  cbn [for_slots]. unfold bind.
  assert (Hi : check_slot orc sp i c w = (c, w)).
  { pose proof (Hclear i (or_introl eq_refl)) as Hc.
    unfold check_slot, clear_of in *.
    destruct (onScreen_at sp i); [|reflexivity].
    specialize (Hc eq_refl).
    destruct (x_collides _ _); [|reflexivity].
    destruct (y_collides _ _); [discriminate|reflexivity]. }
  rewrite Hi. cbn [fst snd]. apply IH.
  intros k Hk. apply Hclear. right. exact Hk.
Qed.

(** X6: a first candidate that is clear of every visible slot is taken
    as it is.  When the picked slot is not shown, the flag reads down and
    the first position drawn collides with no visible slot, the pass
    places the slot there in one scan, with three calls of [random] and
    no re-roll; on an empty screen this is always so. *)
Theorem clear_candidate_accepted (orc : Oracle) (fuel : nat) (sp : Sprites)
    (w : World) :
  let w1 := snd (random orc maxSprites w) in
  let w2 := snd (random orc xBorderSprite w1) in
  let k := Z.to_nat (to_u16 (fst (random orc maxSprites w))) in
  let x := to_u16 (fst (random orc xBorderSprite w1)) in
  let y := to_u16 (fst (random orc yBorderSprite w2)) in
  onScreen_at sp k = false ->
  fst (read_changeButtonState orc w) = false ->
  (forall i, In i all_slots -> clear_of sp x y i) ->
  let r := sprite_tick orc (S fuel) sp w in
  fst r = (Placed k x y, place sp k x y) /\
  rand_calls (snd r) = (rand_calls w + 3)%nat /\
  flag_reads (snd r) = S (flag_reads w).
Proof.
  intros w1 w2 k x y Hv Hread Hclear r. subst r.
  unfold sprite_tick, bind. fold k. rewrite Hv. fold w1. fold x. fold w2. fold y.
  cbn [find_free]. unfold bind, ret.
  set (w3 := snd (random orc yBorderSprite w2)).
  change (fst (read_changeButtonState orc w3))
    with (fst (read_changeButtonState orc w)).
  rewrite Hread. cbn [xPos yPos].
  rewrite (for_slots_clear orc sp all_slots
             {| xPos := x; yPos := y; collision := false |}
             (snd (read_changeButtonState orc w3)) Hclear).
  cbn [fst snd collision xPos yPos]. split; [reflexivity|].
  split; [cbn; lia|reflexivity].
Qed.

Lemma clear_candidate_accepted_witness :
  let o := bench [3; 10; 20] [] 1 in
  let r := sprite_tick o 1 no_sprites (start_world 0) in
  fst r = (Placed 3 10 20, place no_sprites 3 10 20) /\
  rand_calls (snd r) = 3%nat.
Proof.
  intros o r.
  assert (Hclear : forall i, In i all_slots -> clear_of no_sprites 10 20 i).
  { intros i _ Hv. unfold onScreen_at, no_sprites in Hv. cbn [onScreen] in Hv.
    destruct (replicate (Z.to_nat maxSprites) false !! i) as [b|] eqn:E;
      [|discriminate].
    apply lookup_replicate in E as [-> _]. discriminate. }
  destruct (clear_candidate_accepted o 0 no_sprites (start_world 0)
              eq_refl eq_refl Hclear) as (H1 & H2 & _).
  split; [exact H1|exact H2].
Defined.

(** ** More on the slideshow *)

Lemma final_delay_out (orc : Oracle) (fuel : nat) (time_1 : Z) (w : World) :
  out (snd (final_delay orc fuel time_1 w)) = out w.
Proof.
  revert w. induction fuel as [|fuel IH]; intros w; [reflexivity|].
  cbn [final_delay]. unfold bind, yield, ret.
  destruct (negb _); [apply (IH (snd (millis orc w)))|reflexivity].
Qed.

Lemma remaining_next (dir : list string) :
  remaining (fst (openNextFile dir)) (snd (openNextFile dir)) = dir.
Proof. destruct dir; reflexivity. Qed.

(** The paths the loop [while(entry)] draws are those of the next [k]
    entries in the order of the directory, each as [getName] hands its
    name out; all of them when the slideshow ends, not all of them when
    it is cut short, and then the flag is set. *)
Lemma show_rest_names (orc : Oracle) (root : string) (fuel : nat) :
  forall (entry : option string) (dir : list string) (t : Z) (w : World),
    let r := show_rest orc fuel root entry dir t w in
    exists k : nat,
      (k <= length (remaining entry dir))%nat /\
      map snd (shown (out (snd r))) =
        (map snd (shown (out w)) ++
         map (fun name => (root ++ getName (Some name))%string)
           (take k (remaining entry dir)))%list /\
      (fst r = Finished -> k = length (remaining entry dir)) /\
      (fst r = Cancelled ->
       (k < length (remaining entry dir))%nat /\
       changeButtonState (globals (snd r)) = true).
Proof.
  induction fuel as [|fuel IH]; intros [name|] dir t w; cbn zeta.
  - exists O. cbn. rewrite app_nil_r. split; [lia|]. repeat split; discriminate.
  - exists O. cbn. rewrite app_nil_r. split; [lia|]. repeat split; discriminate.
  - cbn [show_rest]. unfold bind, yield, ret.
    destruct (fst (read_changeButtonState orc w)) eqn:Hread.
    { exists O. cbn [take map remaining length fst snd].
      rewrite app_nil_r. split; [lia|]. split; [reflexivity|].
      split; [discriminate|].
      intros _. split; [lia|exact Hread]. }
    set (w1 := snd (read_changeButtonState orc w)).
    destruct (_ >=? slideshowRefreshTime).
    + cbn [fst snd].
      set (path := (root ++ getName (Some name))%string).
      set (wd := snd (displayImageTFT orc path (snd (millis orc w1)))).
      destruct (IH (fst (openNextFile dir)) (snd (openNextFile dir))
                  (fst (millis orc wd)) (snd (millis orc wd)))
        as (k & Hle & Hnames & Hfin & Hcan).
      rewrite remaining_next in *.
      exists (S k). cbn [remaining take map length].
      split; [lia|]. split; [|split].
      * rewrite Hnames.
        change (out (snd (millis orc wd))) with (out wd). unfold wd.
        rewrite displayImageTFT_log, shown_app, map_app.
        cbn [shown map snd]. rewrite <- app_assoc. reflexivity.
      * intros H. rewrite (Hfin H). reflexivity.
      * intros H. destruct (Hcan H) as [Hlt Hflag]. split; [lia|exact Hflag].
    + cbn [fst snd].
      destruct (IH (Some name) dir t (snd (millis orc w1)))
        as (k & Hle & Hnames & Hfin & Hcan).
      exists k. split; [exact Hle|]. split; [exact Hnames|]. split; assumption.
  - rewrite show_rest_done.
    destruct (final_delay_deaf orc (S fuel) t w) as (Hne & _ & _).
    exists O. cbn [take map remaining length]. rewrite app_nil_r.
    split; [lia|].
    split; [rewrite final_delay_out; reflexivity|].
    split; [reflexivity|]. intros H. destruct (Hne H).
Qed.

Lemma paths_of_fitting_names (root : string) (names : list string) :
  Forall fits_buffer names ->
  map (fun name => (root ++ getName (Some name))%string) names
  = map (String.append root) names.
Proof.
  induction 1 as [|name names Hfit _ IH]; [reflexivity|].
  cbn [map]. rewrite (getName_fits name Hfit), IH. reflexivity.
Qed.

(** X2: the slideshow shows the entries in the order of the directory,
    each once.  On a directory that is not empty and whose names fit the
    50-byte name buffer (at most 49 characters each), the bitmaps drawn
    by [displayAllImagesDir] are the first [k >= 1] entries, each under
    the root directory, in order; when the call runs to its end these
    are all the entries. *)
Theorem slideshow_order (orc : Oracle) (fuel : nat) (first : string)
    (rest : list string) (root : string) (copy : bool) (w : World) :
  let files := first :: rest in
  Forall fits_buffer files ->
  let r := displayAllImagesDir orc fuel files root copy w in
  exists k : nat,
    (1 <= k <= length files)%nat /\
    map snd (shown (out (snd r))) =
      (map snd (shown (out w)) ++
       map (String.append root) (take k files))%list /\
    (fst r = Finished -> k = length files).
Proof.
  intros files Hfit r. subst r files.
  unfold displayAllImagesDir, bind. cbn [openNextFile fst snd].
  set (path := (root ++ getName (Some first))%string).
  set (wd := snd (displayImageTFT orc path (snd (millis orc w)))).
  destruct (show_rest_names orc root fuel (fst (openNextFile rest))
              (snd (openNextFile rest)) (fst (millis orc w)) wd)
    as (k & Hk & Hnames & Hfin & Hcan).
  cbn zeta in *. rewrite remaining_next in *.
  exists (S k). cbn [length].
  split; [lia|]. split.
  - rewrite Hnames. unfold wd.
    rewrite displayImageTFT_log, shown_app, map_app.
    cbn [shown map snd]. rewrite <- app_assoc. f_equal.
    rewrite <- (paths_of_fitting_names root (take (S k) (first :: rest)))
      by (apply Forall_take; exact Hfit).
    reflexivity.
  - intros H. rewrite (Hfin H). reflexivity.
Qed.

Lemma slideshow_order_witness :
  let o := bench [] [] 1000 in
  let r := displayAllImagesDir o 20 ["a.bmp"; "b.bmp"; "c.bmp"] "/" false
             (start_world 0) in
  fst r = Finished /\
  map snd (shown (out (snd r))) = ["/a.bmp"; "/b.bmp"; "/c.bmp"] /\
  exists k : nat,
    map snd (shown (out (snd r))) =
      (map snd (shown (out (start_world 0))) ++
       map (String.append "/") (take k ["a.bmp"; "b.bmp"; "c.bmp"]))%list /\
    k = 3%nat.
Proof.
  intros o r.
  assert (Hfin : fst r = Finished) by (vm_compute; reflexivity).
  split; [exact Hfin|]. split; [vm_compute; reflexivity|].
  assert (Hfit : Forall fits_buffer ["a.bmp"; "b.bmp"; "c.bmp"])
    by (repeat constructor).
  destruct (slideshow_order o 20 "a.bmp" ["b.bmp"; "c.bmp"] "/" false
              (start_world 0) Hfit) as (k & _ & Hnames & Hall).
  exists k. split; [exact Hnames|exact (Hall Hfin)].
Defined.

Lemma append_empty (s : string) : (s ++ "")%string = s.
Proof.
  induction s as [|a s IH]; [reflexivity|].
  change (String a (s ++ "")%string = String a s). rewrite IH. reflexivity.
Qed.

Lemma empty_directory_aux (orc : Oracle) (fuel : nat) (root : string)
    (copy : bool) (w : World) :
  fst (displayAllImagesDir orc fuel [] root copy w) <> Cancelled.
Proof.
  unfold displayAllImagesDir, bind.
  cbn [openNextFile fst snd getName].
  rewrite show_rest_done. apply final_delay_deaf.
Qed.

(** X4: when the slideshow is cut short.  [displayAllImagesDir] returns
    early only with the flag [changeButtonState] set, and only while an
    entry is still waiting to be shown: the directory has at least two
    entries then, and one with fewer is never cut short. *)
Theorem slideshow_cut_short (orc : Oracle) (fuel : nat) (files : list string)
    (root : string) (copy : bool) (w : World) :
  let r := displayAllImagesDir orc fuel files root copy w in
  fst r = Cancelled ->
  changeButtonState (globals (snd r)) = true /\ (2 <= length files)%nat.
Proof.
  intros r Hcut. subst r. destruct files as [|first rest].
  - destruct (empty_directory_aux orc fuel root copy w Hcut).
  - unfold displayAllImagesDir, bind in *.
    cbn [openNextFile fst snd] in *.
    set (wd := snd (displayImageTFT orc (root ++ getName (Some first))
                      (snd (millis orc w)))) in *.
    destruct (show_rest_names orc root fuel (fst (openNextFile rest))
                (snd (openNextFile rest)) (fst (millis orc w)) wd)
      as (k & _ & _ & _ & Hcan).
    cbn zeta in Hcan. rewrite remaining_next in Hcan.
    destruct (Hcan Hcut) as [Hlt Hflag].
    split; [exact Hflag|]. cbn [length]. lia.
Qed.

Lemma slideshow_cut_short_witness :
  let o := bench [] [true] 1000 in
  let r := displayAllImagesDir o 20 ["a.bmp"; "b.bmp"] "/" false
             (start_world 0) in
  fst r = Cancelled /\
  map snd (shown (out (snd r))) = ["/a.bmp"] /\
  changeButtonState (globals (snd r)) = true.
Proof.
  intros o r.
  assert (Hcut : fst r = Cancelled) by (vm_compute; reflexivity).
  split; [exact Hcut|]. split; [vm_compute; reflexivity|].
  exact (proj1 (slideshow_cut_short o 20 ["a.bmp"; "b.bmp"] "/" false
                  (start_world 0) Hcut)).
Defined.

(** X9: an image that fits is shown whole and centred.  When
    [bmpDimensions] reports a width of at most 240 and a height of at
    most 320, [displayImageTFT] draws the image at a position with
    x >= 0, x + width <= 240, y >= 0, y + height <= 320, and the margin
    on the right (below) is the margin on the left (above) or one pixel
    more. *)
Theorem fitting_image_centred (orc : Oracle) (filename : string) (w : World)
    (stat : ImageReturnCode) (width height : Z) :
  reader_bmpDimensions orc filename 0 0 = (stat, width, height) ->
  0 <= width <= screenWidth -> 0 <= height <= screenLength ->
  exists x y : Z,
    out (snd (displayImageTFT orc filename w)) =
      (out w ++ [PrintStatus stat; DrawBMP (now_ms w) filename x y;
                 PrintStatus (reader_drawBMP orc filename x y)])%list /\
    (0 <= x /\ x + width <= screenWidth /\
     0 <= (screenWidth - width - x) - x <= 1) /\
    (0 <= y /\ y + height <= screenLength /\
     0 <= (screenLength - height - y) - y <= 1).
Proof.
  intros Hdims Hw Hh.
  pose proof (displayImageTFT_log orc filename w) as Hlog.
  cbn zeta in Hlog. rewrite Hdims in Hlog. cbn [fst snd] in Hlog.
  eexists. eexists. split; [exact Hlog|].
  unfold screenWidth, screenLength in *.
  assert (Hx : to_i16 (to_i32 (240 - width) ÷ 2) = (240 - width) / 2).
  { unfold to_i32. rewrite (Z.mod_small (240 - width + 2147483648)) by lia.
    replace (240 - width + 2147483648 - 2147483648) with (240 - width) by lia.
    rewrite Z.quot_div_nonneg by lia. apply to_i16_small.
    pose proof (Z.div_pos (240 - width) 2 ltac:(lia) ltac:(lia)).
    pose proof (Z.div_le_upper_bound (240 - width) 2 240 ltac:(lia) ltac:(lia)).
    lia. }
  assert (Hy : to_i16 (to_i32 (320 - height) ÷ 2) = (320 - height) / 2).
  { unfold to_i32. rewrite (Z.mod_small (320 - height + 2147483648)) by lia.
    replace (320 - height + 2147483648 - 2147483648) with (320 - height) by lia.
    rewrite Z.quot_div_nonneg by lia. apply to_i16_small.
    pose proof (Z.div_pos (320 - height) 2 ltac:(lia) ltac:(lia)).
    pose proof (Z.div_le_upper_bound (320 - height) 2 320 ltac:(lia) ltac:(lia)).
    lia. }
  rewrite Hx, Hy.
  pose proof (Z.div_mod (240 - width) 2 ltac:(lia)).
  pose proof (Z.mod_pos_bound (240 - width) 2 ltac:(lia)).
  pose proof (Z.div_mod (320 - height) 2 ltac:(lia)).
  pose proof (Z.mod_pos_bound (320 - height) 2 ltac:(lia)).
  lia.
Qed.

Lemma fitting_image_centred_witness :
  let o := {| irq := fun _ => false; rand_raw := fun _ => 0;
              clock := fun _ => 0;
              reader_bmpDimensions := fun _ _ _ => (IMAGE_SUCCESS, 101, 320);
              reader_drawBMP := fun _ _ _ => IMAGE_SUCCESS |} in
  shown (out (snd (displayImageTFT o "/a.bmp" (start_world 0)))) = [(0, "/a.bmp")] /\
  exists x y : Z,
    out (snd (displayImageTFT o "/a.bmp" (start_world 0))) =
      [PrintStatus IMAGE_SUCCESS; DrawBMP 0 "/a.bmp" x y;
       PrintStatus IMAGE_SUCCESS] /\
    0 <= (240 - 101 - x) - x <= 1 /\ y + 320 <= 320.
Proof.
  intros o. split; [reflexivity|].
  destruct (fitting_image_centred o "/a.bmp" (start_world 0)
              IMAGE_SUCCESS 101 320 eq_refl) as (x & y & Hout & Hx & Hy).
  - unfold screenWidth. lia.
  - unfold screenLength. lia.
  - exists x, y. split; [exact Hout|].
    unfold screenWidth, screenLength in *. lia.
Defined.

(** ** Counting the sprites on screen *)

Lemma count_true_insert (l : list bool) :
  forall (k : nat) (b : bool),
    l !! k = Some b ->
    (count_true (<[k := negb b]> l) + (if b then 1 else 0)
     = count_true l + (if b then 0 else 1))%nat.
Proof.
  induction l as [|a l IH]; intros k b Hk; [discriminate|].
  destruct k as [|k].
  - cbn in Hk. injection Hk as ->. destruct b; cbn; lia.
  - cbn in Hk. specialize (IH k b Hk).
    change (<[S k := negb b]> (a :: l)) with (a :: <[k := negb b]> l).
    cbn [count_true]. destruct a, b; cbn [negb] in *; lia.
Qed.

Lemma count_true_length (l : list bool) : (count_true l <= length l)%nat.
Proof.
  induction l as [|a l IH]; [cbn; lia|]. cbn [count_true length].
  destruct a; lia.
Qed.

(** X15: a completed pass changes the number of sprites on screen by
    exactly one.  Erasing takes one away, placing adds one, a pass that
    returns on the flag leaves the number as it is; there are never more
    than [maxSprites] = 10. *)
Theorem visible_count_step (orc : Oracle) (fuel : nat) (sp : Sprites)
    (w : World) :
  sprites_wf sp ->
  let r := sprite_tick orc fuel sp w in
  match fst (fst r) with
  | Erased _ => S (visible_count (snd (fst r))) = visible_count sp
  | Placed _ _ _ => visible_count (snd (fst r)) = S (visible_count sp)
  | Aborted _ | Unfinished _ => visible_count (snd (fst r)) = visible_count sp
  end /\
  (visible_count (snd (fst r)) <= 10)%nat.
Proof.
  intros Hwf r. subst r.
  destruct (sprite_tick_cases orc fuel sp w) as [Hk Hcases].
  cbn zeta in Hcases.
  set (k := Z.to_nat (to_u16 (fst (random orc maxSprites w)))) in *.
  pose proof (lookup_onScreen sp k Hwf Hk) as Hlook.
  assert (Hbound : forall sp', sprites_wf sp' -> (visible_count sp' <= 10)%nat).
  { intros sp' (_ & _ & Hlv). unfold visible_count.
    pose proof (count_true_length (onScreen sp')) as Hle.
    rewrite Hlv in Hle. exact Hle. }
  destruct Hcases as [[Hv ->]|[(Hv & x & y & -> & _)|[[_ ->]|[_ ->]]]];
    cbn [fst snd].
  - split; [|apply Hbound, hide_wf, Hwf].
    rewrite Hv in Hlook. unfold visible_count, hide. cbn [onScreen].
    pose proof (count_true_insert (onScreen sp) k true Hlook) as H.
    cbn [negb] in H. lia.
  - split; [|apply Hbound, place_wf, Hwf].
    rewrite Hv in Hlook. unfold visible_count, place. cbn [onScreen].
    pose proof (count_true_insert (onScreen sp) k false Hlook) as H.
    cbn [negb] in H. lia.
  - split; [reflexivity|apply Hbound, Hwf].
  - split; [reflexivity|apply Hbound, Hwf].
Qed.

Lemma visible_count_step_witness :
  let o := bench [3; 10; 20; 5; 15; 25; 100; 100; 3] [] 1 in
  let t1 := sprite_tick o 5 no_sprites (start_world 0) in
  let t2 := sprite_tick o 5 (snd (fst t1)) (snd t1) in
  let t3 := sprite_tick o 5 (snd (fst t2)) (snd t2) in
  fst (fst t3) = Erased 3 /\
  visible_count (snd (fst t2)) = 2%nat /\
  S (visible_count (snd (fst t3))) = visible_count (snd (fst t2)).
Proof.
  intros o t1 t2 t3.
  assert (Hwf : sprites_wf (snd (fst t2))) by (repeat split).
  assert (H3 : fst (fst t3) = Erased 3) by (vm_compute; reflexivity).
  split; [exact H3|]. split; [vm_compute; reflexivity|].
  pose proof (visible_count_step o 5 (snd (fst t2)) (snd t2) Hwf) as H.
  lazy zeta in H. destruct H as [H _].
  unfold t3 in H3 |- *. rewrite H3 in H. exact H.
Defined.

(** ** The mode functions and the mode state *)

(** X16: only [loop] itself changes the mode.  Neither the slideshow nor
    the pattern mode writes [currentState] or [prevStateChange], however
    long they run; so after a whole call of [loop] the two variables are
    what the debounce step at its head made of them. *)
Theorem modes_leave_mode_state (orc : Oracle) (n fuel : nat)
    (files : list string) (root : string) (copy : bool) (w : World) :
  same_mode (globals w) (globals (snd (patternMode orc n fuel w))) /\
  same_mode (globals w)
    (globals (snd (displayAllImagesDir orc n files root copy w))) /\
  same_mode (globals (snd (loop_head orc w)))
    (globals (snd (loop orc n fuel files w))).
Proof.
  split; [apply keeps_patternMode|].
  split; [apply keeps_displayAllImagesDir|].
  unfold loop, bind, get_globals. cbn [fst snd].
  destruct (mode_of _).
  - apply keeps_displayAllImagesDir.
  - apply (keeps_bind (patternMode orc n fuel) (fun r => ret (fst r)));
      [apply keeps_patternMode|intros r; apply keeps_ret].
Qed.

(** ** The pace of the slideshow *)

Section SlideshowPace.

Variable orc : Oracle.

(** The clock never goes back. *)
Hypothesis forward : forall n, clock orc n <= clock orc (S n).

Lemma final_delay_full (fuel : nat) :
  forall (tau : Z) (w : World),
    tau <= clock orc (clock_calls w) ->
    fst (final_delay orc fuel (to_u32 tau) w) = Finished ->
    tau + slideshowRefreshTime
      <= now_ms (snd (final_delay orc fuel (to_u32 tau) w)).
Proof.
  induction fuel as [|fuel IH]; intros tau w Htau; [discriminate|].
  cbn [final_delay]. unfold bind, yield, ret.
  change (fst (millis orc w)) with (to_u32 (clock orc (clock_calls w))).
  pose proof (forward (clock_calls w)) as Hf.
  destruct (_ >=? slideshowRefreshTime) eqn:Hgate; cbn [negb].
  - intros _. cbn [millis snd now_ms].
    rewrite Z.geb_leb, Z.leb_le in Hgate.
    pose proof (elapsed_lower (clock orc (clock_calls w)) tau ltac:(lia)). lia.
  - apply (IH tau (snd (millis orc w))). cbn [millis snd clock_calls]. lia.
Qed.

Lemma show_rest_pace (root : string) (fuel : nat) :
  forall (entry : option string) (dir : list string) (tau : Z) (w : World),
    tau <= clock orc (clock_calls w) ->
    let r := show_rest orc fuel root entry dir (to_u32 tau) w in
    exists l,
      out (snd r) = (out w ++ l)%list /\
      spaced slideshowRefreshTime (map fst (shown l)) /\
      Forall (fun t => tau + slideshowRefreshTime <= t) (map fst (shown l)) /\
      (fst r = Finished ->
       tau + slideshowRefreshTime <= now_ms (snd r) /\
       Forall (fun t => t + slideshowRefreshTime <= now_ms (snd r))
         (map fst (shown l))).
Proof.
  induction fuel as [|fuel IH]; intros [name|] dir tau w Htau; cbn zeta.
  - exists []. split; [symmetry; apply app_nil_r|].
    repeat split; try constructor; discriminate.
  - exists []. split; [symmetry; apply app_nil_r|].
    repeat split; try constructor; discriminate.
  - cbn [show_rest]. unfold bind, yield, ret.
    destruct (fst (read_changeButtonState orc w)).
    { exists []. split; [symmetry; apply app_nil_r|].
      repeat split; try constructor; discriminate. }
    set (w1 := snd (read_changeButtonState orc w)).
    change (fst (millis orc w1)) with (to_u32 (clock orc (clock_calls w))).
    set (c := clock orc (clock_calls w)) in *.
    pose proof (forward (clock_calls w)) as Hf1.
    pose proof (forward (S (clock_calls w))) as Hf2.
    fold c in Hf1.
    destruct (elapsed (to_u32 c) (to_u32 tau) >=? slideshowRefreshTime)
      eqn:Hgate.
    + rewrite Z.geb_leb, Z.leb_le in Hgate.
      pose proof (elapsed_lower c tau ltac:(lia)) as Hlow.
      cbn [fst snd].
      set (path := (root ++ getName (Some name))%string).
      set (wd := snd (displayImageTFT orc path (snd (millis orc w1)))).
      change (fst (millis orc wd)) with (to_u32 (clock orc (S (clock_calls w)))).
      destruct (IH (fst (openNextFile dir)) (snd (openNextFile dir))
                  (clock orc (S (clock_calls w))) (snd (millis orc wd)))
        as (l2 & Ho2 & Hsp2 & Hall2 & Hfin2).
      { exact Hf2. }
      set (r := show_rest orc fuel root (fst (openNextFile dir))
                  (snd (openNextFile dir))
                  (to_u32 (clock orc (S (clock_calls w))))
                  (snd (millis orc wd))) in *.
      change (out (snd (millis orc wd))) with (out wd) in Ho2.
      assert (Hod : exists x y st1 st2,
                 out wd = (out w ++ [PrintStatus st1; DrawBMP c path x y;
                                     PrintStatus st2])%list).
      { do 4 eexists. unfold wd. rewrite displayImageTFT_log. reflexivity. }
      destruct Hod as (x & y & st1 & st2 & Hod).
      eexists. split; [rewrite Ho2, Hod, <- app_assoc; reflexivity|].
      rewrite shown_app, map_app. cbn [shown map fst app].
      assert (Hall2' : Forall (fun t => c + slideshowRefreshTime <= t)
                         (map fst (shown l2))).
      { eapply Forall_impl; [exact Hall2|]. cbn beta. intros a Ha. lia. }
      split; [apply spaced_cons; assumption|].
      split.
      * constructor; [lia|].
        eapply Forall_impl; [exact Hall2'|]. cbn beta. intros a Ha. lia.
      * intros Hfin. destruct (Hfin2 Hfin) as [Hnow Hnows].
        split; [lia|]. constructor; [lia|exact Hnows].
    + destruct (IH (Some name) dir tau (snd (millis orc w1)))
        as (l2 & Ho2 & Hrest).
      { change (clock_calls (snd (millis orc w1))) with (S (clock_calls w)).
        lia. }
      exists l2. split; [exact Ho2|exact Hrest].
  - rewrite show_rest_done.
    exists []. split; [rewrite final_delay_out; symmetry; apply app_nil_r|].
    split; [constructor|]. split; [constructor|].
    intros Hfin. split; [|constructor].
    apply final_delay_full; assumption.
Qed.

(** X17: every image stays for a full interval.  With a clock that never
    goes back, the images of a slideshow are drawn at clock readings at
    least [slideshowRefreshTime] = 4000 ms apart, whatever the directory
    and whenever the button is pressed; and when the call runs to its
    end, it returns at least 4000 ms after the last image was drawn. *)
Theorem slideshow_pace (fuel : nat) (files : list string) (root : string)
    (copy : bool) (w : World) :
  let r := displayAllImagesDir orc fuel files root copy w in
  exists l,
    out (snd r) = (out w ++ l)%list /\
    spaced slideshowRefreshTime (map fst (shown l)) /\
    (fst r = Finished ->
     Forall (fun t => t + slideshowRefreshTime <= now_ms (snd r))
       (map fst (shown l))).
Proof.
  intros r. subst r. unfold displayAllImagesDir, bind.
  cbn [fst snd].
  set (name := (root ++ getName (fst (openNextFile files)))%string).
  set (c := clock orc (clock_calls w)).
  change (fst (millis orc w)) with (to_u32 c).
  set (wd := snd (displayImageTFT orc name (snd (millis orc w)))).
  destruct (show_rest_pace root fuel
              (fst (openNextFile (snd (openNextFile files))))
              (snd (openNextFile (snd (openNextFile files)))) c wd)
    as (l2 & Ho2 & Hsp2 & Hall2 & Hfin2).
  { exact (forward (clock_calls w)). }
  cbn zeta in *.
  set (r := show_rest orc fuel root _ _ (to_u32 c) wd) in *.
  assert (Hod : exists x y st1 st2,
             out wd = (out w ++ [PrintStatus st1; DrawBMP c name x y;
                                 PrintStatus st2])%list).
  { do 4 eexists. unfold wd. rewrite displayImageTFT_log. reflexivity. }
  destruct Hod as (x & y & st1 & st2 & Hod).
  eexists. split; [rewrite Ho2, Hod, <- app_assoc; reflexivity|].
  rewrite shown_app, map_app. cbn [shown map fst app].
  split.
  - apply spaced_cons; assumption.
  - intros Hfin. destruct (Hfin2 Hfin) as [Hnow Hnows].
    constructor; assumption.
Qed.

End SlideshowPace.

Lemma slideshow_pace_witness :
  let o := bench [] [] 1000 in
  let r := displayAllImagesDir o 20 ["a.bmp"; "b.bmp"; "c.bmp"] "/" false
             (start_world 0) in
  fst r = Finished /\
  map fst (shown (out (snd r))) = [0; 4000; 9000] /\
  now_ms (snd r) = 14000 /\
  exists l,
    out (snd r) = (out (start_world 0) ++ l)%list /\
    spaced slideshowRefreshTime (map fst (shown l)) /\
    Forall (fun t => t + slideshowRefreshTime <= now_ms (snd r))
      (map fst (shown l)).
Proof.
  intros o r.
  assert (Hfin : fst r = Finished) by (vm_compute; reflexivity).
  split; [exact Hfin|]. split; [vm_compute; reflexivity|].
  split; [vm_compute; reflexivity|].
  assert (Hforward : forall n, clock o n <= clock o (S n))
    by (intros n; cbn [clock o bench]; lia).
  destruct (slideshow_pace o Hforward 20 ["a.bmp"; "b.bmp"; "c.bmp"] "/" false
              (start_world 0)) as (l & Hout & Hsp & Hend).
  exists l. split; [exact Hout|]. split; [exact Hsp|exact (Hend Hfin)].
Defined.

(** ** The empty directory *)

(** The last loop ends only at a clock reading that the 32-bit test
    finds a full interval after [time_1]. *)
Lemma final_delay_gate (orc : Oracle) (fuel : nat) (time_1 : Z) :
  forall w : World,
    fst (final_delay orc fuel time_1 w) = Finished ->
    slideshowRefreshTime
      <= elapsed (to_u32 (now_ms (snd (final_delay orc fuel time_1 w)))) time_1.
Proof.
  induction fuel as [|fuel IH]; intros w; [discriminate|].
  cbn [final_delay]. unfold bind, yield, ret.
  change (fst (millis orc w)) with (to_u32 (clock orc (clock_calls w))).
  destruct (_ >=? slideshowRefreshTime) eqn:Hgate; cbn [negb].
  - intros _. cbn [millis snd now_ms].
    rewrite Z.geb_leb, Z.leb_le in Hgate. exact Hgate.
  - apply (IH (snd (millis orc w))).
Qed.

(** X1: an empty directory.  With no entry at all, [displayAllImagesDir]
    still makes one draw attempt, on the path of the root directory
    itself (the closed file has the empty name), at the first clock
    reading; it never reads the flag, so it cannot be cut short; and it
    waits out the interval: it comes to its end only at a clock reading
    whose 32-bit difference to the first one is at least
    [slideshowRefreshTime] = 4000 ms, which with a clock that never goes
    back is at least 4000 ms after the first reading. *)
Theorem empty_directory (orc : Oracle) (fuel : nat) (root : string)
    (copy : bool) (w : World) :
  let r := displayAllImagesDir orc fuel [] root copy w in
  let t0 := clock orc (clock_calls w) in
  fst r <> Cancelled /\
  flag_reads (snd r) = flag_reads w /\
  shown (out (snd r)) = (shown (out w) ++ [(t0, root)])%list /\
  (fst r = Finished ->
   slideshowRefreshTime <= elapsed (to_u32 (now_ms (snd r))) (to_u32 t0) /\
   ((forall n, clock orc n <= clock orc (S n)) ->
    t0 + slideshowRefreshTime <= now_ms (snd r))).
Proof.
  intros r t0. subst r t0. unfold displayAllImagesDir, bind.
  cbn [openNextFile fst snd getName].
  rewrite show_rest_done, append_empty.
  set (wd := snd (displayImageTFT orc root (snd (millis orc w)))).
  change (fst (millis orc w)) with (to_u32 (clock orc (clock_calls w))).
  destruct (final_delay_deaf orc fuel (to_u32 (clock orc (clock_calls w))) wd)
    as (Hne & Hreads & _).
  split; [exact Hne|]. split; [exact Hreads|]. split.
  - rewrite final_delay_out. unfold wd.
    rewrite displayImageTFT_log, shown_app. reflexivity.
  - intros Hfin. split; [apply final_delay_gate; exact Hfin|].
    intros Hforward. apply (final_delay_full orc Hforward); [|exact Hfin].
    exact (Hforward (clock_calls w)).
Qed.

Lemma empty_directory_witness :
  let o := bench [] [] 1000 in
  let r := displayAllImagesDir o 10 [] "/" false (start_world 0) in
  fst r = Finished /\
  shown (out (snd r)) = [(0, "/")] /\
  now_ms (snd r) = 4000 /\
  clock o (clock_calls (start_world 0)) + slideshowRefreshTime <= now_ms (snd r).
Proof.
  intros o r.
  assert (Hfin : fst r = Finished) by (vm_compute; reflexivity).
  assert (Hforward : forall n, clock o n <= clock o (S n))
    by (intros n; cbn [clock o bench]; lia).
  split; [exact Hfin|]. split; [vm_compute; reflexivity|].
  split; [vm_compute; reflexivity|].
  destruct (empty_directory o 10 "/" false (start_world 0))
    as (_ & _ & _ & Hwait).
  exact (proj2 (Hwait Hfin) Hforward).
Defined.
